(** * djoser.views: a shallow embedding of the authentication endpoints

    The module [djoser/views.py] is glue between HTTP requests and the
    authentication primitives of Django and Django REST framework.  The
    embedding keeps that shape:

    - Python text is a list of code points ([str]); dictionaries with
      string keys are [gmap str _];
    - the database (users, bearer tokens), the mail outbox, the clock and
      the entropy source form a [World]; a view method is a computation in
      a state-and-exception monad [M] over it;
    - every external collaborator (template renderer, token generator,
      password hasher, serializers) is a field of the class [Framework];
    - [str.splitlines], [str.join] and [str.format] are written out. *)

From Stdlib Require Import ZArith NArith Ascii String DecimalString DecimalZ.
From stdpp Require Import gmap strings list.

Local Open Scope N_scope.

(** ** Python text *)

Abbreviation str := (list N).

Definition lit (s : string) : str := N_of_ascii <$> list_ascii_of_string s.

(** [unicode.splitlines()]: the line boundaries of Python text. *)
Definition is_linebreak (c : N) : bool :=
  bool_decide (c ∈ [10; 11; 12; 13; 28; 29; 30; 133; 8232; 8233]).

(** [cur] is the line being read, most recent character first.  A carriage
    return directly followed by a line feed is one boundary; a last line
    that is empty is not reported. *)
Fixpoint splitlines_from (cur : str) (s : str) : list str :=
  match s with
  | [] => match cur with [] => [] | _ => [rev cur] end
  | c :: rest =>
      if bool_decide (c = 13) then
        match rest with
        | 10 :: rest' => rev cur :: splitlines_from [] rest'
        | _ => rev cur :: splitlines_from [] rest
        end
      else if is_linebreak c then rev cur :: splitlines_from [] rest
      else splitlines_from (c :: cur) rest
  end.

Definition splitlines (s : str) : list str := splitlines_from [] s.

(** [sep.join(parts)] *)
Definition join (sep : str) (parts : list str) : str :=
  match parts with
  | [] => []
  | p :: ps => p ++ concat ((λ q, sep ++ q) <$> ps)
  end.

(** ** Exceptions and the monad of view methods

    [OutsideFragment] is not a Python exception: it marks a format string
    that leaves the fragment of [str.format] written out below. *)

Inductive Exception :=
  | KeyError (key : str)
  | IndexError
  | ValueError
  | TypeError
  | AttributeError (name : string)
  | NotImplementedError
  | MultipleObjectsReturned
  | IntegrityError
  | OutsideFragment.

Inductive Result (A : Type) :=
  | Ok (a : A)
  | Raise (e : Exception).
Arguments Ok {A} a.
Arguments Raise {A} e.

Definition is_ok {A} (r : Result A) : bool :=
  match r with Ok _ => true | Raise _ => false end.

Definition rmap {A B} (f : A → B) (r : Result A) : Result B :=
  match r with Ok a => Ok (f a) | Raise e => Raise e end.

Definition rbind {A B} (r : Result A) (f : A → Result B) : Result B :=
  match r with Ok a => f a | Raise e => Raise e end.

(** ** The data model

    The user model of [get_user_model()], the [Token] model of
    [rest_framework.authtoken] (one row per bearer token, [user_id] holding
    the owner's primary key) and the message class
    [EmailMultiAlternatives]. *)

Record User := mkUser {
  pk : Z;
  email : str;
  username : str;
  is_active : bool;
  password : str;
}.

Record Token := mkToken {
  key : str;
  user_id : Z;
}.

Record EmailMessage := mkEmail {
  m_subject : str;
  m_body : str;
  m_from : option str;
  m_to : list str;
  m_alternatives : list (str * str);
}.

#[global] Instance User_eq_dec : EqDecision User.
Proof. solve_decision. Defined.
#[global] Instance Token_eq_dec : EqDecision Token.
Proof. solve_decision. Defined.

(** The state a request runs against: both tables in row order, the
    messages handed to the mail transport, the day the clock shows and the
    number of random values drawn so far. *)
Record World := mkWorld {
  users : list User;
  tokens : list Token;
  outbox : list EmailMessage;
  today : nat;
  entropy : nat;
}.

Definition M (A : Type) : Type := World → Result A * World.

Definition ret {A} (a : A) : M A := λ w, (Ok a, w).
Definition raise {A} (e : Exception) : M A := λ w, (Raise e, w).
Definition bind {A B} (m : M A) (f : A → M B) : M B :=
  λ w, match m w with
       | (Ok a, w') => f a w'
       | (Raise e, w') => (Raise e, w')
       end.
Definition lift {A} (r : Result A) : M A := λ w, (r, w).

Notation "x <- m ;; k" := (bind m (λ x, k))
  (at level 100, m at next level, right associativity, only parsing).
Notation "m ;;; k" := (bind m (λ _, k))
  (at level 100, right associativity, only parsing).

(** [for x in xs: body(x)] *)
Fixpoint for_each {A} (xs : list A) (body : A → M unit) : M unit :=
  match xs with
  | [] => ret tt
  | x :: xs' => body x ;;; for_each xs' body
  end.

(** ** Values, dictionaries and responses *)

Inductive Value :=
  | VStr (s : str)
  | VUser (u : User).

Abbreviation Context := (gmap str Value).
Abbreviation Dict := (gmap str str).
Abbreviation ErrorDict := (gmap str (list str)).

Inductive Data :=
  | NoData
  | Errors (e : ErrorDict)
  | Fields (d : Dict).

Definition HTTP_200_OK : Z := 200.
Definition HTTP_400_BAD_REQUEST : Z := 400.

Record Response := mkResponse {
  data : Data;
  status : Z;
}.

(** ** Settings

    [settings.get(name)] reads the project's [DJOSER] dictionary; its
    module is not part of the sources at hand, so the configured values
    are a record and [settings.get] is a projection.
    [DEFAULT_FROM_EMAIL] is the Django setting read with [getattr]. *)
Record Settings := mkSettings {
  DOMAIN : str;
  SITE_NAME : str;
  ACTIVATION_URL : str;
  PASSWORD_RESET_CONFIRM_URL : str;
  LOGIN_AFTER_REGISTRATION : bool;
  LOGIN_AFTER_ACTIVATION : bool;
  SEND_ACTIVATION_EMAIL : bool;
  SET_PASSWORD_RETYPE : bool;
  SET_USERNAME_RETYPE : bool;
  PASSWORD_RESET_CONFIRM_RETYPE : bool;
  DEFAULT_FROM_EMAIL : option str;
}.

(** ** The uid codec *)

Definition b64_alphabet : str :=
  lit "ABCDEFGHIJKLMNOPQRSTUVWXYZabcdefghijklmnopqrstuvwxyz0123456789-_".

(** The character of a six-bit digit. *)
Definition b64_char (d : N) : N :=
  if d <? 26 then 65 + d
  else if d <? 52 then 97 + (d - 26)
  else if d <? 62 then 48 + (d - 52)
  else if d =? 62 then 45
  else 95.

(** The six-bit digit of a character, if it is in the alphabet. *)
Definition b64_digit (c : N) : option N :=
  if (65 <=? c) && (c <=? 90) then Some (c - 65)
  else if (97 <=? c) && (c <=? 122) then Some (c - 97 + 26)
  else if (48 <=? c) && (c <=? 57) then Some (c - 48 + 52)
  else if c =? 45 then Some 62
  else if c =? 95 then Some 63
  else None.

(** Three bytes give four characters; a rest of one or two bytes gives two
    or three characters, and no padding is written. *)
Fixpoint urlsafe_base64_encode (bs : list N) : str :=
  match bs with
  | [] => []
  | [a] => [b64_char (a / 4); b64_char (a mod 4 * 16)]
  | [a; b] =>
      [b64_char (a / 4); b64_char (a mod 4 * 16 + b / 16);
       b64_char (b mod 16 * 4)]
  | a :: b :: c :: rest =>
      b64_char (a / 4) :: b64_char (a mod 4 * 16 + b / 16)
      :: b64_char (b mod 16 * 4 + c / 64) :: b64_char (c mod 64)
      :: urlsafe_base64_encode rest
  end.

Fixpoint urlsafe_base64_decode (cs : str) : option (list N) :=
  match cs with
  | [] => Some []
  | [_] => None
  | [c1; c2] =>
      d1 ← b64_digit c1; d2 ← b64_digit c2;
      Some [d1 * 4 + d2 / 16]
  | [c1; c2; c3] =>
      d1 ← b64_digit c1; d2 ← b64_digit c2; d3 ← b64_digit c3;
      Some [d1 * 4 + d2 / 16; d2 mod 16 * 16 + d3 / 4]
  | c1 :: c2 :: c3 :: c4 :: rest =>
      d1 ← b64_digit c1; d2 ← b64_digit c2; d3 ← b64_digit c3;
      d4 ← b64_digit c4; bs ← urlsafe_base64_decode rest;
      Some (d1 * 4 + d2 / 16 :: d2 mod 16 * 16 + d3 / 4
            :: d3 mod 4 * 64 + d4 :: bs)
  end.

(** [str(pk)] and [int(text)] for an integer key, in decimal. *)
Definition str_of_int (z : Z) : str :=
  lit (NilEmpty.string_of_int (Z.to_int z)).

Definition unlit (s : str) : string :=
  string_of_list_ascii (ascii_of_N <$> s).

Definition int_of_str (s : str) : option Z :=
  Z.of_int <$> NilEmpty.int_of_string (unlit s).

(** Modelled from the spec: the uid codec ([utils.encode_uid] and
    [utils.decode_uid], whose module is not among the sources) is the
    "reversible encoding of a user's primary key into a URL-safe token
    component", "converting a user identifier to/from a URL-safe string".
    The key's decimal text is written in unpadded URL-safe base 64. *)
Definition encode_uid (pk : Z) : str :=
  urlsafe_base64_encode (str_of_int pk).

(** Modelled from the spec: the decoding direction of the uid codec. *)
Definition decode_uid (uid : str) : option Z :=
  urlsafe_base64_decode uid ≫= int_of_str.

Definition url_safe (s : str) : Prop := Forall (λ c, c ∈ b64_alphabet) s.

(** ** External collaborators *)

Record Request := mkRequest {
  DATA : Dict;
  is_secure : bool;
  request_user : option User;   (* [None] is the anonymous user *)
}.

(** What a view reads from a serializer after validation. *)
Record LoginAttrs := { object : User }.
Record PasswordResetAttrs := { data_email : str }.
Record SetPasswordAttrs := { new_password : str }.
Record PasswordResetConfirmAttrs := {
  reset_user : User;
  reset_new_password : str;
}.
Record UidAndTokenAttrs := { user : User }.
Record SetUsernameAttrs := { new_username : str }.

(** The serializer classes of [djoser.serializers] that the views name,
    each with the attributes its view reads. *)
Inductive SerializerClass : Type → Type :=
  | UserRegistrationSerializer : SerializerClass unit
  | UserRegistrationWithAuthTokenSerializer : SerializerClass unit
  | UserLoginSerializer : SerializerClass LoginAttrs
  | PasswordResetSerializer : SerializerClass PasswordResetAttrs
  | SetPasswordSerializer : SerializerClass SetPasswordAttrs
  | SetPasswordRetypeSerializer : SerializerClass SetPasswordAttrs
  | PasswordResetConfirmSerializer : SerializerClass PasswordResetConfirmAttrs
  | PasswordResetConfirmRetypeSerializer :
      SerializerClass PasswordResetConfirmAttrs
  | UidAndTokenSerializer : SerializerClass UidAndTokenAttrs
  | SetUsernameSerializer : SerializerClass SetUsernameAttrs
  | SetUsernameRetypeSerializer : SerializerClass SetUsernameAttrs.

(** A serializer bound to request data, with the outcome of [is_valid()]. *)
Record Serializer (A : Type) := mkSerializer {
  is_valid : bool;
  errors : ErrorDict;
  attrs : A;
}.
Arguments mkSerializer {A}.
Arguments is_valid {A}.
Arguments errors {A}.
Arguments attrs {A}.

(** The name held by [User.USERNAME_FIELD]. *)
Inductive UsernameField := username_field | email_field.

Class Framework := {
  (** [loader.render_to_string(template_name, context)] *)
  render_to_string : str → Context → str;
  (** [default_token_generator]: the token made for a user on a day, and
      the check of a token for a user on a day *)
  make_token : User → nat → str;
  check_token : User → str → nat → bool;
  (** [Token.generate_key()] and the hasher behind [set_password], each
      applied to the number of random values drawn before *)
  generate_key : nat → str;
  make_password : nat → str → str;
  is_password_usable : str → bool;
  (** [str(user)] *)
  user_str : User → str;
  (** [serializers.TokenSerializer(token).data] *)
  TokenSerializer : Token → Dict;
  USERNAME_FIELD : UsernameField;
  (** [self.get_serializer(data=request.DATA)] for a serializer class,
      validated against the database *)
  get_serializer :
    ∀ A, SerializerClass A → Request → World → Serializer A;
}.
Arguments get_serializer {_ A}.

(** ** [str.format] with keyword arguments

    The fragment with replacement fields that are plain names: doubled
    braces are literal braces, a field with an empty or numeric name asks
    for a positional argument, of which there are none.  Attribute and
    index lookups, conversions and format specifications are outside the
    fragment. *)
Inductive FormatState :=
  | Text
  | Closing
  | Field (name : str).

Definition is_digit (c : N) : bool := (48 <=? c) && (c <=? 57).

Definition field_value (to_str : Value → str) (kwargs : Context) (name : str)
  : Result str :=
  if forallb is_digit name then Raise IndexError
  else match kwargs !! name with
       | Some v => Ok (to_str v)
       | None => Raise (KeyError name)
       end.

Fixpoint format_from (to_str : Value → str) (kwargs : Context)
    (st : FormatState) (tpl : str) : Result str :=
  match tpl with
  | [] => match st with Text => Ok [] | _ => Raise ValueError end
  | c :: rest =>
      match st with
      | Text =>
          if c =? 123 then format_from to_str kwargs (Field []) rest
          else if c =? 125 then format_from to_str kwargs Closing rest
          else rmap (cons c) (format_from to_str kwargs Text rest)
      | Closing =>
          if c =? 125 then rmap (cons 125) (format_from to_str kwargs Text rest)
          else Raise ValueError
      | Field name =>
          if c =? 123 then
            match name with
            | [] => rmap (cons 123) (format_from to_str kwargs Text rest)
            | _ => Raise ValueError
            end
          else if c =? 125 then
            rbind (field_value to_str kwargs name) (λ v,
              rmap (app v) (format_from to_str kwargs Text rest))
          else if bool_decide (c ∈ [46; 91; 33; 58]) then Raise OutsideFragment
          else format_from to_str kwargs (Field (name ++ [c])) rest
      end
  end.

(** ** The ORM calls the views make *)

Definition lower (c : N) : N :=
  if (65 <=? c) && (c <=? 90) then c + 32 else c.

(** The lookup [email__iexact]: equality up to the case of letters. *)
Definition iexact (a b : str) : bool :=
  bool_decide (lower <$> a = lower <$> b).

(** What [instance.save()] writes: the row with the instance's key is
    overwritten, and an instance whose key has no row is inserted. *)
Definition save_row (u : User) (rows : list User) : list User :=
  if existsb (λ r, bool_decide (pk r = pk u)) rows
  then (λ r, if bool_decide (pk r = pk u) then u else r) <$> rows
  else rows ++ [u].

(** [email_message.send()] *)
Definition send (m : EmailMessage) : M unit :=
  λ w, (Ok tt, mkWorld (users w) (tokens w) (outbox w ++ [m])
                       (today w) (entropy w)).

Definition tokens_of (u : User) (rows : list Token) : list Token :=
  filter (λ t, user_id t = pk u) rows.

Section Views.
Context `{Framework} (settings : Settings).

Definition to_str (v : Value) : str :=
  match v with
  | VStr s => s
  | VUser u => user_str u
  end.

(** [template.format] applied to the keyword arguments [kwargs] *)
Definition format (tpl : str) (kwargs : Context) : Result str :=
  format_from to_str kwargs Text tpl.

(** [user.set_password(raw_password)], giving the changed instance *)
Definition set_password (u : User) (raw_password : str) : M User :=
  λ w, (Ok (mkUser (pk u) (email u) (username u) (is_active u)
                   (make_password (entropy w) raw_password)),
        mkWorld (users w) (tokens w) (outbox w) (today w) (S (entropy w))).

Definition has_usable_password (u : User) : bool :=
  is_password_usable (password u).

(** [setattr(user, User.USERNAME_FIELD, value)], giving the changed
    instance *)
Definition setattr_username_field (u : User) (value : str) : User :=
  match USERNAME_FIELD with
  | username_field =>
      mkUser (pk u) (email u) value (is_active u) (password u)
  | email_field =>
      mkUser (pk u) value (username u) (is_active u) (password u)
  end.

(** [getattr(user, User.USERNAME_FIELD)] *)
Definition get_username (u : User) : str :=
  match USERNAME_FIELD with
  | username_field => username u
  | email_field => email u
  end.

(** The column named by [USERNAME_FIELD] is unique.  The database checks
    it when a save changes it: [loaded] is the instance as the view got
    it, [u] the instance it saves, and the save is refused when [u] has
    a new value in that column that a row of another user holds. *)
Definition unique_violation (loaded u : User) (rows : list User) : bool :=
  negb (bool_decide (get_username u = get_username loaded))
  && existsb (λ r, negb (bool_decide (pk r = pk u))
                   && bool_decide (get_username r = get_username u)) rows.

(** [user.save()] for an instance that the view has changed since it
    got it as [loaded] *)
Definition save (loaded u : User) : M unit :=
  λ w, if unique_violation loaded u (users w)
       then (Raise IntegrityError, w)
       else (Ok tt, mkWorld (save_row u (users w)) (tokens w) (outbox w)
                            (today w) (entropy w)).

(** [Token.objects.get_or_create(user=obj)]: the token row of the user
    when there is one, and otherwise a new row with a generated key *)
Definition get_or_create (obj : User) : M (Token * bool) :=
  λ w, match tokens_of obj (tokens w) with
       | [] =>
           let token := mkToken (generate_key (entropy w)) (pk obj) in
           (Ok (token, true),
            mkWorld (users w) (tokens w ++ [token]) (outbox w)
                    (today w) (S (entropy w)))
       | [token] => (Ok (token, false), w)
       | _ => (Raise MultipleObjectsReturned, w)
       end.

(** *** The classes of the module *)

Inductive View :=
  | RegistrationView
  | LoginView
  | PasswordResetView
  | SetPasswordView
  | PasswordResetConfirmView
  | ActivationView
  | SetUsernameView.

Inductive TokenGenerator := default_token_generator.

(** The class attribute [token_generator], where a class sets it. *)
Definition token_generator (self : View) : option TokenGenerator :=
  match self with
  | RegistrationView | PasswordResetView
  | PasswordResetConfirmView | ActivationView => Some default_token_generator
  | LoginView | SetPasswordView | SetUsernameView => None
  end.

(** The attributes the view reads from its serializer. *)
Definition view_attrs (self : View) : Type :=
  match self with
  | RegistrationView => unit
  | LoginView => LoginAttrs
  | PasswordResetView => PasswordResetAttrs
  | SetPasswordView => SetPasswordAttrs
  | PasswordResetConfirmView => PasswordResetConfirmAttrs
  | ActivationView => UidAndTokenAttrs
  | SetUsernameView => SetUsernameAttrs
  end.

(** [get_serializer_class], with the class attribute [serializer_class]
    where the method is inherited *)
Definition get_serializer_class (self : View)
  : SerializerClass (view_attrs self) :=
  match self with
  | RegistrationView =>
      if LOGIN_AFTER_REGISTRATION settings
      then UserRegistrationWithAuthTokenSerializer
      else UserRegistrationSerializer
  | LoginView => UserLoginSerializer
  | PasswordResetView => PasswordResetSerializer
  | SetPasswordView =>
      if SET_PASSWORD_RETYPE settings
      then SetPasswordRetypeSerializer
      else SetPasswordSerializer
  | PasswordResetConfirmView =>
      if PASSWORD_RESET_CONFIRM_RETYPE settings
      then PasswordResetConfirmRetypeSerializer
      else PasswordResetConfirmSerializer
  | ActivationView => UidAndTokenSerializer
  | SetUsernameView =>
      if SET_USERNAME_RETYPE settings
      then SetUsernameRetypeSerializer
      else SetUsernameSerializer
  end.

(** *** SendEmailViewMixin *)

(** [EmailMultiAlternatives(subject, body, from_email, to)]: a sender that
    is [None] or empty is replaced by the setting [DEFAULT_FROM_EMAIL]. *)
Definition EmailMultiAlternatives (subject body : str)
    (from_email : option str) (to : list str) : EmailMessage :=
  mkEmail subject body
          (match from_email with
           | Some (_ :: _) => from_email
           | _ => DEFAULT_FROM_EMAIL settings
           end)
          to [].

(** [email_message.attach_alternative(content, mimetype)] *)
Definition attach_alternative (m : EmailMessage) (content mimetype : str)
  : EmailMessage :=
  mkEmail (m_subject m) (m_body m) (m_from m) (m_to m)
          (m_alternatives m ++ [(content, mimetype)]).

Definition send_email (to_email : str) (from_email : option str)
    (context : Context) (subject_template_name : str)
    (plain_body_template_name : str)
    (html_body_template_name : option str) : M unit :=
  let subject := render_to_string subject_template_name context in
  let subject := join [] (splitlines subject) in
  let body := render_to_string plain_body_template_name context in
  let email_message :=
    EmailMultiAlternatives subject body from_email [to_email] in
  let email_message :=
    match html_body_template_name with
    | Some name =>
        let html_email := render_to_string name context in
        attach_alternative email_message html_email (lit "text/html")
    | None => email_message
    end in
  send email_message.

(** The keyword arguments built for [send_email]; a template name that
    the dictionary does not hold is [None]. *)
Record SendEmailKwargs := mkKwargs {
  from_email : option str;
  to_email : str;
  context : Context;
  subject_template_name : option str;
  plain_body_template_name : option str;
  html_body_template_name : option str;
}.

(** [self.send_email] applied to the keyword arguments [kwargs] *)
Definition send_email_with (kwargs : SendEmailKwargs) : M unit :=
  match subject_template_name kwargs, plain_body_template_name kwargs with
  | Some subject_name, Some body_name =>
      send_email (to_email kwargs) (from_email kwargs) (context kwargs)
                 subject_name body_name (html_body_template_name kwargs)
  | _, _ => raise TypeError
  end.

Definition SendEmailViewMixin_get_email_context
    (self : View) (request : Request) (u : User) : M Context :=
  token <- (λ w,
    match token_generator self with
    | Some default_token_generator => (Ok (make_token u (today w)), w)
    | None => (Raise (AttributeError "token_generator"), w)
    end) ;;
  let uid := encode_uid (pk u) in
  url <- lift (format (ACTIVATION_URL settings)
                 (<[lit "uid" := VStr uid]>
                    (<[lit "token" := VStr token]> ∅))) ;;
  ret (<[lit "user" := VUser u]>
      (<[lit "domain" := VStr (DOMAIN settings)]>
      (<[lit "site_name" := VStr (SITE_NAME settings)]>
      (<[lit "url" := VStr url]>
      (<[lit "uid" := VStr uid]>
      (<[lit "token" := VStr token]>
      (<[lit "protocol" :=
           VStr (if is_secure request then lit "https" else lit "http")]>
       ∅))))))).

(** [self.get_email_context(user)], resolved in the class of [self] *)
Definition get_email_context
    (self : View) (request : Request) (u : User) : M Context :=
  match self with
  | RegistrationView =>
      context <- SendEmailViewMixin_get_email_context self request u ;;
      url <- lift (format (ACTIVATION_URL settings) context) ;;
      ret (<[lit "url" := VStr url]> context)
  | PasswordResetView =>
      context <- SendEmailViewMixin_get_email_context self request u ;;
      url <- lift (format (PASSWORD_RESET_CONFIRM_URL settings) context) ;;
      ret (<[lit "url" := VStr url]> context)
  | _ => SendEmailViewMixin_get_email_context self request u
  end.

Definition SendEmailViewMixin_get_send_email_kwargs
    (self : View) (request : Request) (u : User) : M SendEmailKwargs :=
  context <- get_email_context self request u ;;
  ret (mkKwargs (DEFAULT_FROM_EMAIL settings) (email u) context
                None None None).

(** [self.get_send_email_kwargs(user)], resolved in the class of [self] *)
Definition get_send_email_kwargs
    (self : View) (request : Request) (u : User) : M SendEmailKwargs :=
  match self with
  | RegistrationView =>
      kwargs <- SendEmailViewMixin_get_send_email_kwargs self request u ;;
      ret (mkKwargs (from_email kwargs) (to_email kwargs) (context kwargs)
             (Some (lit "activation_email_subject.txt"))
             (Some (lit "activation_email_body.txt"))
             (html_body_template_name kwargs))
  | PasswordResetView =>
      kwargs <- SendEmailViewMixin_get_send_email_kwargs self request u ;;
      ret (mkKwargs (from_email kwargs) (to_email kwargs) (context kwargs)
             (Some (lit "password_reset_email_subject.txt"))
             (Some (lit "password_reset_email_body.txt"))
             (html_body_template_name kwargs))
  | _ => SendEmailViewMixin_get_send_email_kwargs self request u
  end.

(** *** RegistrationView *)

Definition RegistrationView_post_save
    (request : Request) (obj : User) : M unit :=
  (if LOGIN_AFTER_REGISTRATION settings
   then get_or_create obj ;;; ret tt
   else ret tt) ;;;
  (if SEND_ACTIVATION_EMAIL settings
   then kwargs <- get_send_email_kwargs RegistrationView request obj ;;
        send_email_with kwargs
   else ret tt).

(** *** LoginView *)

Definition LoginView_action (serializer : Serializer LoginAttrs)
  : M Response :=
  created <- get_or_create (object (attrs serializer)) ;;
  let token := created.1 in
  ret (mkResponse (Fields (TokenSerializer token)) HTTP_200_OK).

(** *** PasswordResetView *)

Definition PasswordResetView_get_users (email' : str) : M (list User) :=
  λ w,
    let active_users :=
      List.filter (λ u, iexact (email u) email' && is_active u) (users w) in
    (Ok (List.filter has_usable_password active_users), w).

Definition PasswordResetView_post (request : Request) : M Response :=
  serializer <- (λ w, (Ok (get_serializer
                             (get_serializer_class PasswordResetView)
                             request w), w)) ;;
  if is_valid serializer then
    found <- PasswordResetView_get_users (data_email (attrs serializer)) ;;
    for_each found (λ u,
      kwargs <- get_send_email_kwargs PasswordResetView request u ;;
      send_email_with kwargs) ;;;
    ret (mkResponse NoData HTTP_200_OK)
  else
    ret (mkResponse (Errors (errors serializer)) HTTP_400_BAD_REQUEST).

(** *** SetPasswordView, PasswordResetConfirmView, ActivationView,
    SetUsernameView *)

(** [self.request.user] as a user instance; the anonymous user has no
    password to set and cannot be saved. *)
Definition authenticated_user (request : Request) : M User :=
  match request_user request with
  | Some u => ret u
  | None => raise NotImplementedError
  end.

Definition SetPasswordView_action (request : Request)
    (serializer : Serializer SetPasswordAttrs) : M Response :=
  loaded <- authenticated_user request ;;
  u <- set_password loaded (new_password (attrs serializer)) ;;
  save loaded u ;;;
  ret (mkResponse NoData HTTP_200_OK).

Definition PasswordResetConfirmView_action
    (serializer : Serializer PasswordResetConfirmAttrs) : M Response :=
  u <- set_password (reset_user (attrs serializer))
                    (reset_new_password (attrs serializer)) ;;
  save (reset_user (attrs serializer)) u ;;;
  ret (mkResponse NoData HTTP_200_OK).

Definition ActivationView_action (serializer : Serializer UidAndTokenAttrs)
  : M Response :=
  let loaded := user (attrs serializer) in
  let u := mkUser (pk loaded) (email loaded) (username loaded) true
                  (password loaded) in
  save loaded u ;;;
  if LOGIN_AFTER_ACTIVATION settings then
    created <- get_or_create u ;;
    let token := created.1 in
    ret (mkResponse (Fields (TokenSerializer token)) HTTP_200_OK)
  else
    ret (mkResponse (Fields ∅) HTTP_200_OK).

Definition SetUsernameView_action (request : Request)
    (serializer : Serializer SetUsernameAttrs) : M Response :=
  loaded <- authenticated_user request ;;
  let u := setattr_username_field loaded (new_username (attrs serializer)) in
  save loaded u ;;;
  ret (mkResponse NoData HTTP_200_OK).

(** *** PostActionViewMixin *)

(** [self.action(serializer)], resolved in the class of [self]; the two
    views without the mixin define no [action]. *)
Definition action (self : View) (request : Request)
  : Serializer (view_attrs self) → M Response :=
  match self with
  | LoginView => LoginView_action
  | SetPasswordView => SetPasswordView_action request
  | PasswordResetConfirmView => PasswordResetConfirmView_action
  | ActivationView => ActivationView_action
  | SetUsernameView => SetUsernameView_action request
  | RegistrationView | PasswordResetView =>
      λ _, raise (AttributeError "action")
  end.

(** The mixin's [post], over the method a class provides as [action]. *)
Definition PostActionViewMixin_post_with {A}
    (class : SerializerClass A) (action : Serializer A → M Response)
    (request : Request) : M Response :=
  serializer <- (λ w, (Ok (get_serializer class request w), w)) ;;
  if is_valid serializer then
    action serializer
  else
    ret (mkResponse (Errors (errors serializer)) HTTP_400_BAD_REQUEST).

Definition PostActionViewMixin_post (self : View) (request : Request)
  : M Response :=
  PostActionViewMixin_post_with (get_serializer_class self)
                                (action self request) request.

End Views.

(** ** The class statements of the module, in source order *)

Inductive ClassDef :=
  | SendEmailViewMixin
  | PostActionViewMixin
  | Handler (v : View).

Inductive BaseClass :=
  | Local (c : ClassDef)
  | External (name : string).

Definition bases (c : ClassDef) : list BaseClass :=
  match c with
  | SendEmailViewMixin => [External "object"]
  | PostActionViewMixin => [External "object"]
  | Handler RegistrationView =>
      [Local SendEmailViewMixin; External "generics.CreateAPIView"]
  | Handler LoginView =>
      [Local PostActionViewMixin; External "generics.GenericAPIView"]
  | Handler PasswordResetView =>
      [Local SendEmailViewMixin; External "generics.GenericAPIView"]
  | Handler SetPasswordView =>
      [Local PostActionViewMixin; External "generics.GenericAPIView"]
  | Handler PasswordResetConfirmView =>
      [Local PostActionViewMixin; External "generics.GenericAPIView"]
  | Handler ActivationView =>
      [Local PostActionViewMixin; External "generics.GenericAPIView"]
  | Handler SetUsernameView =>
      [Local PostActionViewMixin; External "generics.GenericAPIView"]
  end.

Definition views_module : list ClassDef :=
  [SendEmailViewMixin; PostActionViewMixin;
   Handler RegistrationView; Handler LoginView; Handler PasswordResetView;
   Handler SetPasswordView; Handler PasswordResetConfirmView;
   Handler ActivationView; Handler SetUsernameView].

Definition generic_views : list string :=
  ["generics.CreateAPIView"; "generics.GenericAPIView"].

(** A class is an endpoint handler when it derives from a generic view. *)
Definition is_handler (c : ClassDef) : bool :=
  existsb (λ b, match b with
                | External name => bool_decide (name ∈ generic_views)
                | Local _ => false
                end) (bases c).

(** The bases of a class that the module itself defines. *)
Definition mixins_of (c : ClassDef) : list ClassDef :=
  omap (λ b, match b with Local m => Some m | External _ => None end)
       (bases c).

Definition externals_of (c : ClassDef) : list string :=
  omap (λ b, match b with External name => Some name | Local _ => None end)
       (bases c).

(** ** Notions the properties are stated with *)

(** The one-to-one relation of tokens to users, on the token table. *)
Definition one_token_per_user (rows : list Token) : Prop :=
  ∀ u : User, (length (tokens_of u rows) ≤ 1)%nat.

(** The template can be formatted when exactly the names [keys] are given
    as keyword arguments. *)
Definition formats_with (tpl : str) (keys : list str) : bool :=
  is_ok (format_from (λ _, []) (list_to_map ((λ k, (k, VStr [])) <$> keys))
                     Text tpl).


Definition context_keys : list str :=
  [lit "user"; lit "domain"; lit "site_name"; lit "url"; lit "uid";
   lit "token"; lit "protocol"].

(** Both URL templates are usable: the activation template with [uid] and
    [token], which is how the mixin formats it, and the reset template
    with the names of the email context. *)
Definition well_configured (settings : Settings) : bool :=
  formats_with (ACTIVATION_URL settings) [lit "uid"; lit "token"]
  && formats_with (PASSWORD_RESET_CONFIRM_URL settings) context_keys.

(** The URL template of the view that sends an email. *)
Definition url_template (settings : Settings) (self : View) : str :=
  match self with
  | PasswordResetView => PASSWORD_RESET_CONFIRM_URL settings
  | _ => ACTIVATION_URL settings
  end.

(** The dictionary that [SendEmailViewMixin.get_email_context] returns
    for a user, given the token and the URL it has computed. *)
Definition mixin_context (settings : Settings) (request : Request)
    (u : User) (token url : str) : Context :=
  <[lit "user" := VUser u]>
  (<[lit "domain" := VStr (DOMAIN settings)]>
  (<[lit "site_name" := VStr (SITE_NAME settings)]>
  (<[lit "url" := VStr url]>
  (<[lit "uid" := VStr (encode_uid (pk u))]>
  (<[lit "token" := VStr token]>
  (<[lit "protocol" :=
       VStr (if is_secure request then lit "https" else lit "http")]>
   ∅)))))).

(** The keyword arguments [uid] and [token] alone. *)
Definition uid_and_token (uid token : str) : Context :=
  <[lit "uid" := VStr uid]> (<[lit "token" := VStr token]> ∅).

(** The world after further messages were handed to the mail transport. *)
Definition with_message (w : World) (new : list EmailMessage) : World :=
  mkWorld (users w) (tokens w) (outbox w ++ new) (today w) (entropy w).

(** The calls into the module that can write to the database: a POST to
    a view with the post-and-validate mixin, a POST to the password-reset
    view, and the [post_save] hook that the generic create view runs on
    the user it has stored. *)
Inductive Operation :=
  | PostAction (self : View) (request : Request)
  | PasswordResetPost (request : Request)
  | PostSave (request : Request) (obj : User).

(** The world an operation leaves behind. *)
Definition run `{Framework} (settings : Settings) (op : Operation)
    (w : World) : World :=
  match op with
  | PostAction self request =>
      (PostActionViewMixin_post settings self request w).2
  | PasswordResetPost request => (PasswordResetView_post settings request w).2
  | PostSave request obj =>
      (RegistrationView_post_save settings request obj w).2
  end.

(** The worlds that operations lead to from a given world. *)
Inductive reachable `{Framework} (settings : Settings) (w0 : World)
  : World → Prop :=
  | reachable_start : reachable settings w0 w0
  | reachable_step (w : World) (op : Operation) :
      reachable settings w0 w → reachable settings w0 (run settings op w).

(** ** A small concrete framework, for running the views *)

Definition demo_timeout : nat := 3.

Definition demo_make_token (u : User) (made : nat) : str :=
  N.of_nat made :: (if (pk u <? 0)%Z then 1 else 0) :: Z.abs_N (pk u)
  :: password u.

Definition demo_check_token (u : User) (token : str) (now : nat) : bool :=
  match token with
  | made :: rest =>
      bool_decide (made :: rest = demo_make_token u (N.to_nat made))
      && bool_decide (now ≤ N.to_nat made + demo_timeout)%nat
  | [] => false
  end.

Definition demo_serializer (valid : bool) {A} (a : A) : Serializer A :=
  mkSerializer valid {[lit "non_field_errors" := [lit "invalid"]]} a.

(** A request is valid when its data has no ["bad"] entry; the user that
    a serializer finds is the first row of the user table. *)
Definition demo_get_serializer (A : Type) (c : SerializerClass A)
    (request : Request) (w : World) : Serializer A :=
  let valid := bool_decide (DATA request !! lit "bad" = None) in
  let first := default (mkUser 0 [] [] false []) (head (users w)) in
  let text := default [] (DATA request !! lit "value") in
  match c in SerializerClass T return Serializer T with
  | UserRegistrationSerializer => demo_serializer valid tt
  | UserRegistrationWithAuthTokenSerializer => demo_serializer valid tt
  | UserLoginSerializer => demo_serializer valid {| object := first |}
  | PasswordResetSerializer => demo_serializer valid {| data_email := text |}
  | SetPasswordSerializer => demo_serializer valid {| new_password := text |}
  | SetPasswordRetypeSerializer =>
      demo_serializer valid {| new_password := text |}
  | PasswordResetConfirmSerializer =>
      demo_serializer valid
        {| reset_user := first; reset_new_password := text |}
  | PasswordResetConfirmRetypeSerializer =>
      demo_serializer valid
        {| reset_user := first; reset_new_password := text |}
  | UidAndTokenSerializer => demo_serializer valid {| user := first |}
  | SetUsernameSerializer => demo_serializer valid {| new_username := text |}
  | SetUsernameRetypeSerializer =>
      demo_serializer valid {| new_username := text |}
  end.

Definition demo_render (name : str) (context : Context) : str :=
  name ++ [10] ++
  match context !! lit "url" with
  | Some (VStr url) => url
  | _ => []
  end ++ [13; 10].

Definition demo : Framework := {|
  render_to_string := demo_render;
  make_token := demo_make_token;
  check_token := demo_check_token;
  generate_key := λ n, lit "key" ++ [48 + N.of_nat n];
  make_password := λ n raw, lit "hash$" ++ [48 + N.of_nat n] ++ raw;
  is_password_usable := λ p, negb (bool_decide (p = []));
  user_str := username;
  TokenSerializer := λ t, {[lit "auth_token" := key t]};
  USERNAME_FIELD := username_field;
  get_serializer := demo_get_serializer;
|}.

Definition demo_settings : Settings := {|
  DOMAIN := lit "example.com";
  SITE_NAME := lit "Example";
  ACTIVATION_URL := lit "#/activate/{uid}/{token}";
  PASSWORD_RESET_CONFIRM_URL := lit "{protocol}://{domain}/reset/{uid}/{token}";
  LOGIN_AFTER_REGISTRATION := true;
  LOGIN_AFTER_ACTIVATION := true;
  SEND_ACTIVATION_EMAIL := true;
  SET_PASSWORD_RETYPE := false;
  SET_USERNAME_RETYPE := false;
  PASSWORD_RESET_CONFIRM_RETYPE := false;
  DEFAULT_FROM_EMAIL := Some (lit "noreply@example.com");
|}.

Definition alice : User :=
  mkUser 1 (lit "Alice@Example.com") (lit "alice") true (lit "hash$x").
Definition bob : User :=
  mkUser 2 (lit "bob@example.com") (lit "bob") false (lit "hash$y").
Definition carol : User :=
  mkUser 3 (lit "alice@example.com") (lit "carol") true [].

Definition demo_world : World :=
  mkWorld [alice; bob; carol] [mkToken (lit "k1") 2] [] 10 0.

Definition demo_request (value : string) : Request :=
  mkRequest {[lit "value" := lit value]} true (Some alice).

Definition bad_request : Request :=
  mkRequest {[lit "bad" := []]} false None.

(** Settings whose activation template also names the domain. *)
Definition domain_settings : Settings := {|
  DOMAIN := lit "example.com";
  SITE_NAME := lit "Example";
  ACTIVATION_URL := lit "{domain}/#/activate/{uid}/{token}";
  PASSWORD_RESET_CONFIRM_URL := lit "#/reset/{uid}/{token}";
  LOGIN_AFTER_REGISTRATION := false;
  LOGIN_AFTER_ACTIVATION := false;
  SEND_ACTIVATION_EMAIL := false;
  SET_PASSWORD_RETYPE := false;
  SET_USERNAME_RETYPE := false;
  PASSWORD_RESET_CONFIRM_RETYPE := false;
  DEFAULT_FROM_EMAIL := None;
|}.


(** The users a password-reset request for an address is about. *)
Definition reset_candidate `{Framework} (address : str) (u : User) : bool :=
  iexact (email u) address && is_active u && has_usable_password u.

(** The instance of a user after [user.is_active = True]. *)
Definition activated (u : User) : User :=
  mkUser (pk u) (email u) (username u) true (password u).



(** The concrete framework with a renderer that gives the template name
    alone. *)
Definition demo_plain : Framework := {|
  render_to_string := λ name _, name;
  make_token := demo_make_token;
  check_token := demo_check_token;
  generate_key := λ n, lit "key" ++ [48 + N.of_nat n];
  make_password := λ n raw, lit "hash$" ++ [48 + N.of_nat n] ++ raw;
  is_password_usable := λ p, negb (bool_decide (p = []));
  user_str := username;
  TokenSerializer := λ t, {[lit "auth_token" := key t]};
  USERNAME_FIELD := username_field;
  get_serializer := demo_get_serializer;
|}.

Definition bob_request : Request := mkRequest ∅ true (Some bob).

Definition bob_activation : Serializer UidAndTokenAttrs :=
  mkSerializer true ∅ {| user := bob |}.

(** * Properties *)

(** ** Text *)

Lemma join_empty (parts : list str) : join [] parts = concat parts.
Proof.
  destruct parts as [|p ps]; [done|]. unfold join. cbn [concat]. f_equal.
  induction ps as [|q ps IH]; [done|].
  rewrite fmap_cons. cbn [concat app]. exact (f_equal (app q) IH).
Qed.

Lemma splitlines_from_concat (n : nat) :
  ∀ (s cur : str), (length s ≤ n)%nat →
    concat (splitlines_from cur s)
    = rev cur ++ List.filter (λ c, negb (is_linebreak c)) s.
Proof.
  induction n as [|n IH]; intros s cur Hn.
  - destruct s; [|simpl in Hn; lia]. destruct cur; simpl; [done|].
    by rewrite !app_nil_r.
  - destruct s as [|c rest].
    { destruct cur; simpl; [done|]. by rewrite !app_nil_r. }
    simpl in Hn. cbn [splitlines_from List.filter].
    case_bool_decide as Hcr.
    + subst c. replace (is_linebreak 13) with true by done. cbn [negb].
      destruct rest as [|c' rest'].
      * simpl. by rewrite !app_nil_r.
      * assert (Hrest : concat (rev cur :: splitlines_from [] (c' :: rest'))
                        = rev cur ++ List.filter (λ c, negb (is_linebreak c))
                                                 (c' :: rest')).
        { cbn [concat]. rewrite IH by (simpl in *; lia). done. }
        destruct c' as [|p]; [exact Hrest|].
        do 4 (destruct p as [p|p|]; try exact Hrest).
    + destruct (is_linebreak c) eqn:Hc; cbn [negb].
      * cbn [concat]. rewrite IH by lia. done.
      * rewrite IH by lia. cbn [rev]. by rewrite <- app_assoc.
Qed.

Lemma join_splitlines (s : str) :
  join [] (splitlines s) = List.filter (λ c, negb (is_linebreak c)) s.
Proof.
  rewrite join_empty. unfold splitlines.
  by rewrite (splitlines_from_concat (length s)).
Qed.

Lemma join_splitlines_no_linebreak (s : str) :
  Forall (λ c, is_linebreak c = false) (join [] (splitlines s)).
Proof.
  rewrite join_splitlines. apply List.Forall_forall. intros c Hc.
  apply List.filter_In in Hc as [_ Hc]. by destruct (is_linebreak c).
Qed.

(** ** The uid codec *)

Lemma b64_digit_char (d : N) : d < 64 → b64_digit (b64_char d) = Some d.
Proof.
  intros Hd. unfold b64_char, b64_digit.
  repeat match goal with
         | |- context [N.ltb ?a ?b] => destruct (N.ltb_spec a b)
         | |- context [N.leb ?a ?b] => destruct (N.leb_spec a b)
         | |- context [N.eqb ?a ?b] => destruct (N.eqb_spec a b)
         | _ => progress cbn [andb]
         end; try lia; f_equal; lia.
Qed.

Lemma b64_char_alphabet (d : N) : b64_char d ∈ b64_alphabet.
Proof.
  assert (Hall : Forall (λ n, b64_char n ∈ b64_alphabet)
                        (N.of_nat <$> seq 0 64)).
  { apply (bool_decide_unpack _). vm_compute. done. }
  destruct (N.ltb_spec d 64) as [Hlt|Hge].
  - rewrite List.Forall_forall in Hall. apply Hall.
    apply list_elem_of_In, list_elem_of_fmap. exists (N.to_nat d).
    split; [lia|]. apply elem_of_seq. lia.
  - replace (b64_char d) with 95; [by vm_compute; repeat constructor|].
    unfold b64_char.
    repeat match goal with
           | |- context [N.ltb ?a ?b] => destruct (N.ltb_spec a b)
           | |- context [N.eqb ?a ?b] => destruct (N.eqb_spec a b)
           end; try lia; done.
Qed.

(** Quotients and remainders become variables, with the facts stated
    about them, before linear arithmetic runs. *)
Ltac forget_digits :=
  repeat match goal with
         | H : context [N.div ?a ?b] |- _ =>
             let q := fresh "q" in let E := fresh in
             remember (N.div a b) as q eqn:E; clear E
         | H : context [N.modulo ?a ?b] |- _ =>
             let r := fresh "r" in let E := fresh in
             remember (N.modulo a b) as r eqn:E; clear E
         end.

Lemma sextets_of_byte (a : N) :
  a < 256 → a / 4 < 64 ∧ a mod 4 * 16 < 64 ∧ a mod 16 * 4 < 64 ∧ a mod 64 < 64
            ∧ a / 16 < 16 ∧ a / 64 < 4.
Proof.
  intros Ha.
  pose proof (N.div_mod a 4 ltac:(lia)). pose proof (N.mod_lt a 4 ltac:(lia)).
  pose proof (N.div_mod a 16 ltac:(lia)). pose proof (N.mod_lt a 16 ltac:(lia)).
  pose proof (N.div_mod a 64 ltac:(lia)). pose proof (N.mod_lt a 64 ltac:(lia)).
  forget_digits. lia.
Qed.

Lemma join_high_low (h l k : N) : l < k → (h * k + l) / k = h.
Proof.
  intros Hl. rewrite N.mul_comm. symmetry.
  apply (N.div_unique _ _ _ l); [done|lia].
Qed.

Lemma join_high_low_mod (h l k : N) : l < k → (h * k + l) mod k = l.
Proof.
  intros Hl. rewrite N.mul_comm. symmetry.
  apply (N.mod_unique _ _ h l); [done|lia].
Qed.

Lemma byte_from_sextets_1 (a b : N) :
  a < 256 → b < 256 → a / 4 * 4 + (a mod 4 * 16 + b / 16) / 16 = a.
Proof.
  intros Ha Hb. destruct (sextets_of_byte b Hb) as (_&_&_&_&Hb16&_).
  rewrite join_high_low by done.
  pose proof (N.div_mod a 4 ltac:(lia)). forget_digits. lia.
Qed.

Lemma byte_from_sextets_2 (a b c : N) :
  a < 256 → b < 256 → c < 256 →
  (a mod 4 * 16 + b / 16) mod 16 * 16 + (b mod 16 * 4 + c / 64) / 4 = b.
Proof.
  intros Ha Hb Hc.
  destruct (sextets_of_byte b Hb) as (_&_&_&_&Hb16&_).
  destruct (sextets_of_byte c Hc) as (_&_&_&_&_&Hc64).
  rewrite join_high_low_mod, join_high_low by done.
  pose proof (N.div_mod b 16 ltac:(lia)). forget_digits. lia.
Qed.

Lemma byte_from_sextets_3 (b c : N) :
  b < 256 → c < 256 → (b mod 16 * 4 + c / 64) mod 4 * 64 + c mod 64 = c.
Proof.
  intros Hb Hc. destruct (sextets_of_byte c Hc) as (_&_&_&_&_&Hc64).
  rewrite join_high_low_mod by done.
  pose proof (N.div_mod c 64 ltac:(lia)). forget_digits. lia.
Qed.

Lemma mixed_sextet_16 (a b : N) :
  a < 256 → b < 256 → a mod 4 * 16 + b / 16 < 64.
Proof.
  intros Ha Hb. destruct (sextets_of_byte b Hb) as (_&_&_&_&Hb16&_).
  pose proof (N.mod_lt a 4 ltac:(lia)). forget_digits. lia.
Qed.

Lemma mixed_sextet_4 (b c : N) :
  b < 256 → c < 256 → b mod 16 * 4 + c / 64 < 64.
Proof.
  intros Hb Hc. destruct (sextets_of_byte c Hc) as (_&_&_&_&_&Hc64).
  pose proof (N.mod_lt b 16 ltac:(lia)). forget_digits. lia.
Qed.

Lemma urlsafe_base64_roundtrip_bounded (n : nat) :
  ∀ bs : list N, (length bs ≤ n)%nat → Forall (λ b, b < 256) bs →
    urlsafe_base64_decode (urlsafe_base64_encode bs) = Some bs.
Proof.
  induction n as [|n IH]; intros bs Hn Hbs.
  { destruct bs; [done|simpl in Hn; lia]. }
  destruct bs as [|a [|b [|c rest]]]; [done|..].
  - apply Forall_cons in Hbs as [Ha _].
    destruct (sextets_of_byte a Ha) as (?&?&_).
    cbn [urlsafe_base64_encode urlsafe_base64_decode].
    rewrite !b64_digit_char by done. cbn [mbind option_bind].
    do 2 f_equal. rewrite <- (byte_from_sextets_1 a 0) at 3 by done.
    by rewrite N.add_0_r.
  - apply Forall_cons in Hbs as [Ha Hbs]. apply Forall_cons in Hbs as [Hb _].
    destruct (sextets_of_byte a Ha) as (?&?&_).
    destruct (sextets_of_byte b Hb) as (?&?&?&?&?&?).
    cbn [urlsafe_base64_encode urlsafe_base64_decode].
    rewrite !b64_digit_char by (done || by apply mixed_sextet_16).
    cbn [mbind option_bind]. do 2 f_equal.
    + by apply byte_from_sextets_1.
    + f_equal. rewrite <- (byte_from_sextets_2 a b 0) at 3 by done.
      by rewrite N.add_0_r.
  - apply Forall_cons in Hbs as [Ha Hbs]. apply Forall_cons in Hbs as [Hb Hbs].
    apply Forall_cons in Hbs as [Hc Hbs].
    destruct (sextets_of_byte a Ha) as (?&?&_).
    destruct (sextets_of_byte b Hb) as (?&?&?&?&?&?).
    destruct (sextets_of_byte c Hc) as (?&?&?&?&?&?).
    cbn [urlsafe_base64_encode urlsafe_base64_decode].
    rewrite !b64_digit_char
      by (done || by apply mixed_sextet_16 || by apply mixed_sextet_4).
    cbn [mbind option_bind].
    rewrite IH by (done || simpl in Hn; lia). cbn [mbind option_bind].
    rewrite byte_from_sextets_1, byte_from_sextets_2, byte_from_sextets_3
      by done.
    done.
Qed.

Lemma urlsafe_base64_roundtrip (bs : list N) :
  Forall (λ b, b < 256) bs →
  urlsafe_base64_decode (urlsafe_base64_encode bs) = Some bs.
Proof. by apply (urlsafe_base64_roundtrip_bounded (length bs)). Qed.

Lemma urlsafe_base64_alphabet_bounded (n : nat) :
  ∀ bs : list N, (length bs ≤ n)%nat → url_safe (urlsafe_base64_encode bs).
Proof.
  unfold url_safe.
  induction n as [|n IH]; intros bs Hn.
  { destruct bs; [constructor|simpl in Hn; lia]. }
  destruct bs as [|a [|b [|c rest]]]; cbn [urlsafe_base64_encode];
    repeat (apply Forall_cons; split; [apply b64_char_alphabet|]);
    try apply Forall_nil_2.
  apply IH. simpl in Hn. lia.
Qed.

Lemma lit_bytes (s : string) : Forall (λ b, b < 256) (lit s).
Proof.
  unfold lit. apply Forall_fmap, Forall_true. intros a. apply N_ascii_bounded.
Qed.

Lemma unlit_lit (s : string) : unlit (lit s) = s.
Proof.
  unfold unlit, lit. rewrite <- list_fmap_compose.
  rewrite <- (string_of_list_ascii_of_string s) at 2. f_equal.
  induction (list_ascii_of_string s) as [|a l IH]; [done|].
  rewrite fmap_cons, IH. f_equal. apply ascii_N_embedding.
Qed.

Lemma int_of_str_of_int (z : Z) : int_of_str (str_of_int z) = Some z.
Proof.
  unfold int_of_str, str_of_int. rewrite unlit_lit, NilEmpty.isi. simpl.
  by rewrite DecimalZ.of_to.
Qed.

(** C6: the uid codec is reversible.  For every primary key, decoding the
    encoded key gives the key back, and the encoded key is written in the
    URL-safe alphabet only. *)
Theorem uid_codec_round_trip (pk : Z) :
  decode_uid (encode_uid pk) = Some pk ∧ url_safe (encode_uid pk).
Proof.
  unfold decode_uid, encode_uid. split.
  - rewrite urlsafe_base64_roundtrip by apply lit_bytes.
    apply int_of_str_of_int.
  - by apply (urlsafe_base64_alphabet_bounded (length (str_of_int pk))).
Qed.

(** ** The classes of the module *)

(** C10: the module defines exactly seven endpoint handlers, namely the
    registration, login, password-reset, set-password,
    password-reset-confirm, activation and set-username views; each has
    exactly one of the two mixins of the module as a base, next to one
    generic view of the framework, and the module defines no other
    class than the handlers and the two mixins. *)
Theorem seven_handlers_two_mixins :
  List.filter is_handler views_module
  = Handler <$> [RegistrationView; LoginView; PasswordResetView;
                 SetPasswordView; PasswordResetConfirmView; ActivationView;
                 SetUsernameView]
  ∧ length (List.filter is_handler views_module) = 7%nat
  ∧ List.filter (λ c, negb (is_handler c)) views_module
    = [SendEmailViewMixin; PostActionViewMixin]
  ∧ (∀ v : View,
       Handler v ∈ views_module
       ∧ (mixins_of (Handler v) = [SendEmailViewMixin]
          ∨ mixins_of (Handler v) = [PostActionViewMixin])
       ∧ ∃ generic, externals_of (Handler v) = [generic]
                    ∧ generic ∈ generic_views)
  ∧ mixins_of <$> List.filter is_handler views_module
    = [[SendEmailViewMixin]; [PostActionViewMixin]; [SendEmailViewMixin];
       [PostActionViewMixin]; [PostActionViewMixin]; [PostActionViewMixin];
       [PostActionViewMixin]].
Proof.
  split; [done|]. split; [done|]. split; [done|]. split; [|done].
  intros v. split; [|split].
  - unfold views_module. destruct v; set_solver.
  - destruct v; auto.
  - destruct v; eexists; (split; [reflexivity|]); unfold generic_views;
      set_solver.
Qed.

(** ** Formatting *)

Lemma is_ok_rmap {A B} (f : A → B) (r : Result A) : is_ok (rmap f r) = is_ok r.
Proof. by destruct r. Qed.

(** Whether formatting succeeds depends only on which names are given. *)
Lemma format_from_accepts (f f' : Value → str) (kw kw' : Context) (tpl : str) :
  (∀ name, is_Some (kw !! name) → is_Some (kw' !! name)) →
  ∀ st, is_ok (format_from f kw st tpl) = true →
        is_ok (format_from f' kw' st tpl) = true.
Proof.
  intros Hdom. induction tpl as [|c rest IH]; intros st; [by destruct st|].
  destruct st as [| |name]; cbn [format_from].
  - repeat case_match; rewrite ?is_ok_rmap; auto.
  - repeat case_match; rewrite ?is_ok_rmap; auto.
  - destruct (c =? 123).
    { destruct name; rewrite ?is_ok_rmap; auto. }
    destruct (c =? 125); [|case_bool_decide; auto].
    unfold field_value. destruct (forallb is_digit name); [done|].
    destruct (kw !! name) as [v|] eqn:Hv; [|done].
    destruct (Hdom name (mk_is_Some _ _ Hv)) as [v' ->].
    cbn [rbind]. rewrite !is_ok_rmap. auto.
Qed.

(** Keyword arguments that the template does not use change nothing. *)
Lemma format_from_weaken (f : Value → str) (kw kw' : Context) (tpl : str) :
  kw ⊆ kw' →
  ∀ st s, format_from f kw st tpl = Ok s → format_from f kw' st tpl = Ok s.
Proof.
  intros Hsub. induction tpl as [|c rest IH]; intros st s; [done|].
  destruct st as [| |name]; cbn [format_from].
  - repeat case_match; auto.
    destruct (format_from f kw Text rest) eqn:E; [|done].
    by rewrite (IH _ _ E).
  - repeat case_match; auto.
    destruct (format_from f kw Text rest) eqn:E; [|done].
    by rewrite (IH _ _ E).
  - destruct (c =? 123).
    { destruct name; [|done].
      destruct (format_from f kw Text rest) eqn:E; [|done].
      by rewrite (IH _ _ E). }
    destruct (c =? 125); [|case_bool_decide; auto].
    unfold field_value. destruct (forallb is_digit name); [done|].
    destruct (kw !! name) as [v|] eqn:Hv; [|done].
    rewrite (lookup_weaken _ _ _ _ Hv Hsub). cbn [rbind].
    destruct (format_from f kw Text rest) eqn:E; [|done].
    by rewrite (IH _ _ E).
Qed.


(** ** The email context *)

Ltac lookup_key :=
  repeat first
    [ rewrite lookup_insert_eq
    | rewrite lookup_insert_ne by (vm_compute; congruence)
    | rewrite lookup_empty ].

Ltac each_key Hname :=
  repeat (apply elem_of_cons in Hname as [->|Hname]; [lookup_key; eauto|]);
  try by apply elem_of_nil in Hname.

Section EmailContext.
Context `{Framework} (settings : Settings).

Lemma mixin_context_keys request u token url (name : str) :
  name ∈ context_keys →
  is_Some (mixin_context settings request u token url !! name).
Proof.
  unfold context_keys, mixin_context. intros Hname. each_key Hname.
Qed.

Lemma uid_and_token_keys uid token (name : str) :
  name ∈ [lit "uid"; lit "token"] →
  is_Some (uid_and_token uid token !! name).
Proof. unfold uid_and_token. intros Hname. each_key Hname. Qed.

Lemma uid_and_token_subseteq request u token url :
  uid_and_token (encode_uid (pk u)) token
  ⊆ mixin_context settings request u token url.
Proof.
  apply map_subseteq_spec. intros name v. unfold uid_and_token.
  intros [[<- <-]|[_ [[<- <-]|[_ Hv]]%lookup_insert_Some]]%lookup_insert_Some;
    [unfold mixin_context; by lookup_key..|].
  by rewrite lookup_empty in Hv.
Qed.

Lemma probe_keys (keys : list str) (name : str) :
  is_Some ((list_to_map ((λ k, (k, VStr [])) <$> keys) : Context) !! name) →
  name ∈ keys.
Proof.
  intros [v Hv]. apply elem_of_list_to_map_2 in Hv.
  apply list_elem_of_fmap in Hv as (k & [= -> _] & Hk). done.
Qed.

(** A template that formats with given names formats with every
    dictionary that holds these names. *)
Lemma formats_with_ok (tpl : str) (keys : list str) (kwargs : Context) :
  formats_with tpl keys = true →
  (∀ name, name ∈ keys → is_Some (kwargs !! name)) →
  ∃ text, format tpl kwargs = Ok text.
Proof.
  intros Hok Hkeys. unfold format.
  eapply (format_from_accepts _ to_str _ kwargs) in Hok.
  - destruct (format_from _ _ _ _) as [text|] eqn:E; [by exists text|done].
  - intros name Hname%probe_keys. auto.
Qed.

Lemma mixin_get_email_context_ok self request u w :
  token_generator self = Some default_token_generator →
  formats_with (ACTIVATION_URL settings) [lit "uid"; lit "token"] = true →
  ∃ url,
    format (ACTIVATION_URL settings)
           (uid_and_token (encode_uid (pk u)) (make_token u (today w)))
    = Ok url
    ∧ SendEmailViewMixin_get_email_context settings self request u w
      = (Ok (mixin_context settings request u (make_token u (today w)) url),
         w).
Proof.
  intros Hgen Hok.
  destruct (formats_with_ok _ _
              (uid_and_token (encode_uid (pk u)) (make_token u (today w)))
              Hok) as [url Hurl].
  { intros name. apply uid_and_token_keys. }
  exists url. split; [done|].
  unfold SendEmailViewMixin_get_email_context, bind, lift, ret.
  rewrite Hgen. fold (uid_and_token (encode_uid (pk u))
                                    (make_token u (today w))).
  by rewrite Hurl.
Qed.

(** With usable templates the overriding [get_email_context] of the
    two sending views returns the mixin's dictionary with its link
    replaced. *)
Lemma get_email_context_ok self request u w :
  self = RegistrationView ∨ self = PasswordResetView →
  well_configured settings = true →
  ∃ url0 url : str,
    format (url_template settings self)
           (mixin_context settings request u (make_token u (today w)) url0)
    = Ok url
    ∧ get_email_context settings self request u w
      = (Ok (<[lit "url" := VStr url]>
               (mixin_context settings request u
                              (make_token u (today w)) url0)), w).
Proof.
  intros Hself [Hact Hreset]%andb_prop.
  set (token := make_token u (today w)).
  assert (Hgen : token_generator self = Some default_token_generator)
    by (by destruct Hself as [-> | ->]).
  destruct (mixin_get_email_context_ok self request u w Hgen Hact)
    as (url0 & Hurl0 & Hctx).
  fold token in Hurl0, Hctx.
  assert (∃ url, format (url_template settings self)
                   (mixin_context settings request u token url0) = Ok url)
    as [url Hurl].
  { destruct Hself as [-> | ->]; cbn [url_template].
    - apply (formats_with_ok _ _ _ Hact). intros name Hname.
      unfold mixin_context. each_key Hname.
    - apply (formats_with_ok _ _ _ Hreset). intros name.
      apply mixin_context_keys. }
  exists url0, url. split; [done|].
  destruct Hself as [-> | ->];
    cbn [get_email_context url_template] in *;
    unfold bind, lift, ret; by rewrite Hctx, Hurl.
Qed.

End EmailContext.

(** ** Sending email *)

Lemma with_message_nil (w : World) : with_message w [] = w.
Proof. destruct w. unfold with_message. simpl. by rewrite app_nil_r. Qed.

Lemma with_message_app (w : World) (new more : list EmailMessage) :
  with_message (with_message w new) more = with_message w (new ++ more).
Proof. unfold with_message. simpl. by rewrite app_assoc. Qed.

Lemma filter_twice {A} (p q : A → bool) (l : list A) :
  List.filter q (List.filter p l) = List.filter (λ x, p x && q x) l.
Proof.
  induction l as [|x l IH]; [done|]. simpl.
  destruct (p x); simpl; [destruct (q x)|]; by rewrite ?IH.
Qed.

Section SendEmail.
Context `{Framework} (settings : Settings).

Lemma send_email_message to_email from_email context subject_name body_name
    html_name w :
  ∃ m,
    send_email settings to_email from_email context subject_name body_name
               html_name w
    = (Ok tt, with_message w [m])
    ∧ m_subject m = join [] (splitlines (render_to_string subject_name context))
    ∧ m_body m = render_to_string body_name context
    ∧ m_from m = match from_email with
                 | Some (_ :: _) => from_email
                 | _ => DEFAULT_FROM_EMAIL settings
                 end
    ∧ m_to m = [to_email].
Proof. unfold send_email, send. destruct html_name; by eexists. Qed.

(** C9: for every subject template and context, the message that
    [send_email] hands to the mail transport has as its subject the
    lines of the rendered subject joined together, that is the rendered
    subject without its line boundaries: the subject holds no line
    feed, no carriage return and no other line boundary. *)
Theorem subject_has_no_newline to_email from_email context subject_name
    body_name html_name w :
  ∃ m,
    send_email settings to_email from_email context subject_name body_name
               html_name w
    = (Ok tt, mkWorld (users w) (tokens w) (outbox w ++ [m])
                      (today w) (entropy w))
    ∧ m_subject m = concat (splitlines (render_to_string subject_name context))
    ∧ m_subject m = List.filter (λ c, negb (is_linebreak c))
                      (render_to_string subject_name context)
    ∧ Forall (λ c, is_linebreak c = false) (m_subject m)
    ∧ (10 ∉ m_subject m)
    ∧ (13 ∉ m_subject m).
Proof.
  destruct (send_email_message to_email from_email context subject_name
              body_name html_name w) as (m & Hsend & Hsubject & _).
  pose proof (join_splitlines_no_linebreak
                (render_to_string subject_name context)) as Hnone.
  rewrite <- Hsubject in Hnone.
  exists m. split; [done|]. split; [by rewrite Hsubject, join_empty|].
  split; [by rewrite Hsubject, join_splitlines|]. split; [done|].
  rewrite Forall_forall in Hnone.
  split; intros Hin; by apply Hnone in Hin.
Qed.

(** The keyword arguments and the message for one user. *)
Lemma send_email_for_user self request u w :
  self = RegistrationView ∨ self = PasswordResetView →
  well_configured settings = true →
  ∃ kwargs body_name m,
    get_send_email_kwargs settings self request u w = (Ok kwargs, w)
    ∧ to_email kwargs = email u
    ∧ context kwargs !! lit "user" = Some (VUser u)
    ∧ context kwargs !! lit "token" = Some (VStr (make_token u (today w)))
    ∧ send_email_with settings kwargs w = (Ok tt, with_message w [m])
    ∧ m_to m = [email u]
    ∧ m_body m = render_to_string body_name (context kwargs).
Proof.
  intros Hself Hconf.
  destruct (get_email_context_ok settings self request u w Hself Hconf)
    as (url0 & url & _ & Hctx).
  set (ctx := <[lit "url" := VStr url]> _) in Hctx.
  assert (Huser : ctx !! lit "user" = Some (VUser u))
    by (unfold ctx, mixin_context; by lookup_key).
  assert (Htoken : ctx !! lit "token" = Some (VStr (make_token u (today w))))
    by (unfold ctx, mixin_context; by lookup_key).
  destruct Hself as [-> | ->].
  - destruct (send_email_message (email u) (DEFAULT_FROM_EMAIL settings) ctx
                (lit "activation_email_subject.txt")
                (lit "activation_email_body.txt") None w)
      as (m & Hsend & _ & Hbody & _ & Hto).
    eexists _, _, m. split.
    { cbn [get_send_email_kwargs].
      unfold SendEmailViewMixin_get_send_email_kwargs, bind, ret.
      rewrite Hctx. reflexivity. }
    cbn [to_email context]. repeat split; done.
  - destruct (send_email_message (email u) (DEFAULT_FROM_EMAIL settings) ctx
                (lit "password_reset_email_subject.txt")
                (lit "password_reset_email_body.txt") None w)
      as (m & Hsend & _ & Hbody & _ & Hto).
    eexists _, _, m. split.
    { cbn [get_send_email_kwargs].
      unfold SendEmailViewMixin_get_send_email_kwargs, bind, ret.
      rewrite Hctx. reflexivity. }
    cbn [to_email context]. repeat split; done.
Qed.

(** X18: every token that the registration and password-reset views put
    into an outgoing email is made by the token generator of the view
    for the user the email goes to, on the day of the request: with
    usable URL templates, the message for a user goes to that user's
    address and its body is rendered from a context whose [user] is that
    user and whose [token] is the generator's token for that user; and
    the views that check such tokens (activation, password-reset
    confirm) declare the same generator as the views that make them. *)
Theorem email_token_made_for_recipient self request u w :
  self = RegistrationView ∨ self = PasswordResetView →
  well_configured settings = true →
  token_generator self = Some default_token_generator
  ∧ token_generator ActivationView = token_generator RegistrationView
  ∧ token_generator PasswordResetConfirmView
    = token_generator PasswordResetView
  ∧ ∃ kwargs body_name m,
      get_send_email_kwargs settings self request u w = (Ok kwargs, w)
      ∧ send_email_with settings kwargs w
        = (Ok tt, mkWorld (users w) (tokens w) (outbox w ++ [m])
                          (today w) (entropy w))
      ∧ m_to m = [email u]
      ∧ m_body m = render_to_string body_name (context kwargs)
      ∧ context kwargs !! lit "user" = Some (VUser u)
      ∧ context kwargs !! lit "token"
        = Some (VStr (make_token u (today w))).
Proof.
  intros Hself Hconf.
  split; [by destruct Hself as [-> | ->]|]. split; [done|]. split; [done|].
  destruct (send_email_for_user self request u w Hself Hconf)
    as (kwargs & body_name & m & Hkw & _ & Huser & Htoken & Hsend & Hto
        & Hbody).
  by exists kwargs, body_name, m.
Qed.


End SendEmail.

(** ** Bearer tokens *)

Lemma bind_ok {A B} (m : M A) (f : A → M B) (w w' : World) (a : A) :
  m w = (Ok a, w') → bind m f w = f a w'.
Proof. intros Hm. unfold bind. by rewrite Hm. Qed.

Lemma bind_raise {A B} (m : M A) (f : A → M B) (w w' : World) e :
  m w = (Raise e, w') → bind m f w = (Raise e, w').
Proof. intros Hm. unfold bind. by rewrite Hm. Qed.

Lemma tokens_of_same_key (u u' : User) (rows : list Token) :
  pk u = pk u' → tokens_of u rows = tokens_of u' rows.
Proof. intros Hpk. unfold tokens_of. by rewrite Hpk. Qed.

Lemma tokens_of_app (u : User) (rows more : list Token) :
  tokens_of u (rows ++ more) = tokens_of u rows ++ tokens_of u more.
Proof. apply filter_app. Qed.

Lemma tokens_of_elem (u : User) (rows : list Token) (token : Token) :
  token ∈ tokens_of u rows ↔ user_id token = pk u ∧ token ∈ rows.
Proof. unfold tokens_of. by rewrite list_elem_of_filter. Qed.

(** The only token of a user in a one-to-one table. *)
Lemma tokens_of_existing (u : User) (rows : list Token) (token : Token) :
  one_token_per_user rows → token ∈ rows → user_id token = pk u →
  tokens_of u rows = [token].
Proof.
  intros Hone Hin Hid. specialize (Hone u).
  assert (Hmem : token ∈ tokens_of u rows) by by apply tokens_of_elem.
  destruct (tokens_of u rows) as [|t [|t' l]]; simpl in Hone.
  - by apply elem_of_nil in Hmem.
  - by apply list_elem_of_singleton in Hmem as ->.
  - lia.
Qed.

Section BearerTokens.
Context `{Framework} (settings : Settings).

Lemma get_or_create_existing obj token w :
  tokens_of obj (tokens w) = [token] →
  get_or_create obj w = (Ok (token, false), w).
Proof. intros Hrow. unfold get_or_create. by rewrite Hrow. Qed.

(** In a one-to-one table [get_or_create] succeeds, and afterwards the
    token it gives is the only token of the user. *)
Lemma get_or_create_ok obj w :
  one_token_per_user (tokens w) →
  ∃ token created w',
    get_or_create obj w = (Ok (token, created), w')
    ∧ user_id token = pk obj
    ∧ tokens_of obj (tokens w') = [token]
    ∧ one_token_per_user (tokens w')
    ∧ users w' = users w ∧ outbox w' = outbox w ∧ today w' = today w
    ∧ (created = false → w' = w).
Proof.
  intros Hone. unfold get_or_create.
  pose proof (Hone obj) as Hobj.
  destruct (tokens_of obj (tokens w)) as [|t [|t' l]] eqn:Hrows;
    simpl in Hobj; [| |lia].
  - set (token := mkToken (generate_key (entropy w)) (pk obj)).
    assert (Hnew : ∀ u, tokens_of u [token]
                        = if decide (pk obj = pk u) then [token] else []).
    { intros u. unfold tokens_of. rewrite filter_cons, filter_nil.
      cbn [user_id token]. by repeat case_decide. }
    exists token, true, (mkWorld (users w) (tokens w ++ [token]) (outbox w)
                           (today w) (S (entropy w))).
    cbn [tokens users outbox today].
    split; [done|]. split; [done|]. split.
    { rewrite tokens_of_app, Hrows, Hnew. by case_decide. }
    split; [|done].
    intros u. rewrite tokens_of_app, Hnew. case_decide as Hpk.
    + rewrite <- (tokens_of_same_key obj u) by done. by rewrite Hrows.
    + rewrite app_nil_r. apply Hone.
  - assert (Ht : t ∈ tokens_of obj (tokens w)) by (rewrite Hrows; set_solver).
    apply tokens_of_elem in Ht as [Hid _].
    exists t, false, w. by rewrite Hrows.
Qed.

Lemma mixin_get_email_context_world self request u w :
  (SendEmailViewMixin_get_email_context settings self request u w).2 = w.
Proof.
  unfold SendEmailViewMixin_get_email_context, bind, lift, ret.
  destruct (token_generator self) as [[]|]; [|done].
  by destruct (format _ _).
Qed.

Lemma get_email_context_world self request u w :
  (get_email_context settings self request u w).2 = w.
Proof.
  pose proof (mixin_get_email_context_world self request u w) as Hw.
  destruct self; cbn [get_email_context]; try done; unfold bind, lift, ret;
    destruct (SendEmailViewMixin_get_email_context _ _ _ _ _) as [[ctx|e] w'];
    simpl in Hw; subst w'; try done; by destruct (format _ _).
Qed.

Lemma get_send_email_kwargs_world self request u w :
  (get_send_email_kwargs settings self request u w).2 = w.
Proof.
  pose proof (get_email_context_world self request u w) as Hw.
  destruct self; cbn [get_send_email_kwargs];
    unfold SendEmailViewMixin_get_send_email_kwargs, bind, ret;
    destruct (get_email_context _ _ _ _ _) as [[ctx|e] w'];
    simpl in Hw; by subst w'.
Qed.

Lemma send_email_with_tokens kwargs w :
  tokens (send_email_with settings kwargs w).2 = tokens w.
Proof.
  unfold send_email_with, send_email, send, raise.
  by repeat case_match.
Qed.

(** The email step of [post_save] leaves the token table alone. *)
Lemma activation_email_tokens request obj w :
  tokens ((if SEND_ACTIVATION_EMAIL settings
           then kwargs <- get_send_email_kwargs settings RegistrationView
                            request obj ;;
                send_email_with settings kwargs
           else ret tt) w).2 = tokens w.
Proof.
  destruct (SEND_ACTIVATION_EMAIL settings); [|done].
  pose proof (get_send_email_kwargs_world RegistrationView request obj w)
    as Hw.
  unfold bind.
  destruct (get_send_email_kwargs _ _ _ _ _) as [[kwargs|e] w'];
    simpl in Hw; subst w'; [|done].
  apply send_email_with_tokens.
Qed.

Lemma post_save_tokens request obj w :
  tokens (RegistrationView_post_save settings request obj w).2
  = if LOGIN_AFTER_REGISTRATION settings
    then tokens (get_or_create obj w).2
    else tokens w.
Proof.
  unfold RegistrationView_post_save.
  destruct (LOGIN_AFTER_REGISTRATION settings).
  - destruct (get_or_create obj w) as [[created|e] w'] eqn:Hget.
    + rewrite (bind_ok _ _ w w' tt) by by rewrite (bind_ok _ _ _ _ _ Hget).
      apply activation_email_tokens.
    + by rewrite (bind_raise _ _ w w' e)
        by by rewrite (bind_raise _ _ _ _ _ Hget).
  - rewrite (bind_ok _ _ w w tt) by done. apply activation_email_tokens.
Qed.

Lemma login_action_ok serializer w :
  one_token_per_user (tokens w) →
  ∃ token w',
    LoginView_action serializer w
    = (Ok (mkResponse (Fields (TokenSerializer token)) 200), w')
    ∧ user_id token = pk (object (attrs serializer))
    ∧ tokens_of (object (attrs serializer)) (tokens w') = [token]
    ∧ one_token_per_user (tokens w').
Proof.
  intros Hone.
  destruct (get_or_create_ok (object (attrs serializer)) w Hone)
    as (token & created & w' & Hget & Hid & Hrow & Hone' & _).
  exists token, w'. unfold LoginView_action, bind, ret. by rewrite Hget.
Qed.

(** C7: for every login request whose credentials validate, against a
    token table that is one-to-one, the login view answers with status
    200 and, as its body, the serialization of the bearer token of the
    authenticated user: the token the table then holds for that user. *)
Theorem login_returns_token request w :
  is_valid (get_serializer UserLoginSerializer request w) = true →
  one_token_per_user (tokens w) →
  ∃ (token : Token) (w' : World),
    PostActionViewMixin_post settings LoginView request w
    = (Ok (mkResponse (Fields (TokenSerializer token)) 200), w')
    ∧ user_id token
      = pk (object (attrs (get_serializer UserLoginSerializer request w)))
    ∧ tokens_of
        (object (attrs (get_serializer UserLoginSerializer request w)))
        (tokens w')
      = [token].
Proof.
  intros Hvalid Hone.
  destruct (login_action_ok (get_serializer UserLoginSerializer request w)
              w Hone) as (token & w' & Hact & Hid & Hrow & _).
  exists token, w'. split; [|done].
  unfold PostActionViewMixin_post, PostActionViewMixin_post_with.
  unfold bind at 1.
  cbn [get_serializer_class view_attrs action]. cbv beta iota.
  by rewrite Hvalid.
Qed.
End BearerTokens.

(** ** The actions *)

(** Saving a changed instance of a user that has a row under a key of its
    own replaces that row and no other. *)
Lemma save_row_replaces (u u' : User) (rows : list User) :
  u ∈ rows → (∀ r, r ∈ rows → pk r = pk u → r = u) → pk u' = pk u →
  save_row u' rows = (λ r, if decide (r = u) then u' else r) <$> rows.
Proof.
  intros Hin Hkey Hpk. unfold save_row.
  replace (existsb _ rows) with true.
  - apply list_fmap_ext. intros i r Hr%list_elem_of_lookup_2.
    rewrite Hpk. case_bool_decide as Hrk; case_decide as Hru; try done.
    + by apply Hkey in Hrk.
    + by subst r.
  - symmetry. apply existsb_exists. exists u. split.
    + by apply list_elem_of_In.
    + rewrite Hpk. by apply bool_decide_eq_true.
Qed.

Section Actions.
Context `{Framework} (settings : Settings).

(** A save that leaves the unique column alone is never refused. *)
Lemma save_same_username (loaded u : User) w :
  get_username u = get_username loaded →
  save loaded u w
  = (Ok tt, mkWorld (save_row u (users w)) (tokens w) (outbox w)
                    (today w) (entropy w)).
Proof.
  intros Hsame. unfold save, unique_violation.
  by rewrite (bool_decide_eq_true_2 _ Hsame).
Qed.

Lemma get_username_set_password (u : User) (raw : str) w :
  ∀ u' w', set_password u raw w = (Ok u', w') →
           get_username u' = get_username u.
Proof.
  unfold set_password. intros u' w' [= <- _]. unfold get_username.
  by destruct USERNAME_FIELD.
Qed.

Lemma get_username_activated (u : User) :
  get_username (mkUser (pk u) (email u) (username u) true (password u))
  = get_username u.
Proof. unfold get_username. by destruct USERNAME_FIELD. Qed.

Lemma activation_action_ok serializer w :
  LOGIN_AFTER_ACTIVATION settings = true →
  one_token_per_user (tokens w) →
  ∃ token created w',
    get_or_create (user (attrs serializer))
      (mkWorld (save_row
                  (mkUser (pk (user (attrs serializer)))
                          (email (user (attrs serializer)))
                          (username (user (attrs serializer))) true
                          (password (user (attrs serializer))))
                  (users w))
               (tokens w) (outbox w) (today w) (entropy w))
    = (Ok (token, created), w')
    ∧ ActivationView_action settings serializer w
      = (Ok (mkResponse (Fields (TokenSerializer token)) 200), w')
    ∧ one_token_per_user (tokens w')
    ∧ (created = false → tokens w' = tokens w).
Proof.
  intros Hlogin Hone.
  set (u := user (attrs serializer)).
  set (w1 := mkWorld _ (tokens w) (outbox w) (today w) (entropy w)).
  destruct (get_or_create_ok u w1 Hone)
    as (token & created & w' & Hget & _ & _ & Hone' & _ & _ & _ & Hsame).
  exists token, created, w'. split; [done|]. split; [|split; [done|]].
  - unfold ActivationView_action. rewrite Hlogin. fold u.
    rewrite (bind_ok _ _ w w1 tt)
      by apply save_same_username, get_username_activated.
    assert (Hget' : get_or_create
                      (mkUser (pk u) (email u) (username u) true (password u))
                      w1 = (Ok (token, created), w')).
    { unfold get_or_create in *.
      by rewrite (tokens_of_same_key _ u) by done. }
    by rewrite (bind_ok _ _ _ _ _ Hget').
  - intros Hc. by rewrite (Hsame Hc).
Qed.

Lemma reset_emails_tokens request (found : list User) :
  ∀ w, tokens (for_each found (λ u,
                 kwargs <- get_send_email_kwargs settings PasswordResetView
                             request u ;;
                 send_email_with settings kwargs) w).2 = tokens w.
Proof.
  induction found as [|u found IH]; intros w; [done|].
  cbn [for_each].
  pose proof (get_send_email_kwargs_world settings PasswordResetView request
                u w) as Hw.
  destruct (get_send_email_kwargs settings PasswordResetView request u w)
    as [[kwargs|e] w'] eqn:Hkw; simpl in Hw; subst w'.
  - pose proof (send_email_with_tokens settings kwargs w) as Hsent.
    destruct (send_email_with settings kwargs w) as [[[]|e] w'] eqn:Hsend;
      simpl in Hsent.
    + rewrite (bind_ok _ _ w w' tt)
        by by rewrite (bind_ok _ _ _ _ _ Hkw).
      by rewrite IH.
    + by rewrite (bind_raise _ _ w w' e)
        by by rewrite (bind_ok _ _ _ _ _ Hkw).
  - by rewrite (bind_raise _ _ w w e)
      by by rewrite (bind_raise _ _ _ _ _ Hkw).
Qed.

Lemma password_reset_post_tokens request w :
  tokens (PasswordResetView_post settings request w).2 = tokens w.
Proof.
  unfold PasswordResetView_post.
  rewrite (bind_ok _ _ w w
             (get_serializer (get_serializer_class settings PasswordResetView)
                request w)) by done.
  destruct (is_valid _); [|done].
  erewrite bind_ok by reflexivity.
  pose proof (reset_emails_tokens request
                (List.filter has_usable_password
                   (List.filter
                      (λ u, iexact (email u)
                              (data_email
                                 (attrs (get_serializer
                                           (get_serializer_class settings
                                              PasswordResetView) request w)))
                            && is_active u) (users w))) w) as Hsent.
  destruct (for_each _ _ w) as [[[]|e] w'] eqn:Hsend; simpl in Hsent.
  - by rewrite (bind_ok _ _ _ _ _ Hsend).
  - by rewrite (bind_raise _ _ _ _ _ Hsend).
Qed.

Lemma post_action_one_to_one self request w :
  one_token_per_user (tokens w) →
  one_token_per_user (tokens (PostActionViewMixin_post settings self request w).2).
Proof.
  intros Hone.
  unfold PostActionViewMixin_post, PostActionViewMixin_post_with.
  rewrite (bind_ok _ _ w w
             (get_serializer (get_serializer_class settings self) request w))
    by done.
  destruct (is_valid _); [|done].
  set (serializer := get_serializer _ request w). clearbody serializer.
  destruct self; cbn [action view_attrs] in *.
  - done.
  - destruct (login_action_ok serializer w Hone) as (t & w' & -> & _ & _ & ?).
    done.
  - done.
  - unfold SetPasswordView_action, authenticated_user.
    destruct (request_user request); [|done].
    rewrite (bind_ok _ _ w w u) by done.
    unfold bind, set_password, save, ret. cbn [users].
    by destruct (unique_violation _ _ _).
  - unfold PasswordResetConfirmView_action, bind, set_password, save, ret.
    cbn [users]. by destruct (unique_violation _ _ _).
  - destruct (LOGIN_AFTER_ACTIVATION settings) eqn:Hlogin.
    + destruct (activation_action_ok serializer w Hlogin Hone)
        as (t & c & w' & _ & -> & ? & _). done.
    + unfold ActivationView_action. rewrite Hlogin.
      by rewrite (bind_ok _ _ w _ tt)
        by apply save_same_username, get_username_activated.
  - unfold SetUsernameView_action, authenticated_user.
    destruct (request_user request); [|done].
    rewrite (bind_ok _ _ w w u) by done.
    unfold bind, save, ret. by destruct (unique_violation _ _ _).
Qed.

Lemma run_one_to_one (op : Operation) w :
  one_token_per_user (tokens w) →
  one_token_per_user (tokens (run settings op w)).
Proof.
  intros Hone. destruct op as [self request|request|request obj]; cbn [run].
  - by apply post_action_one_to_one.
  - by rewrite password_reset_post_tokens.
  - rewrite post_save_tokens.
    destruct (LOGIN_AFTER_REGISTRATION settings); [|done].
    destruct (get_or_create_ok obj w Hone)
      as (t & c & w' & -> & _ & _ & ? & _). done.
Qed.

Lemma reachable_one_to_one w0 w :
  one_token_per_user (tokens w0) → reachable settings w0 w →
  one_token_per_user (tokens w).
Proof.
  intros Hone Hreach. induction Hreach as [|w op _ IH]; [done|].
  by apply run_one_to_one.
Qed.

(** C3: starting from a token table with at most one token per user,
    every operation of the module, and so every sequence of them, leaves
    at most one token per user; when the user already has a token, login
    and activation with [LOGIN_AFTER_ACTIVATION] answer with that token
    and add no row, and [post_save] with [LOGIN_AFTER_REGISTRATION] adds
    no row; and two logins of the same user in a row answer with the same
    token. *)
Theorem one_token_per_user_kept request w :
  one_token_per_user (tokens w) →
  (∀ op : Operation, one_token_per_user (tokens (run settings op w)))
  ∧ (∀ w', reachable settings w w' → one_token_per_user (tokens w'))
  ∧ (∀ token serializer,
       token ∈ tokens w →
       user_id token = pk (object (attrs serializer)) →
       LoginView_action serializer w
       = (Ok (mkResponse (Fields (TokenSerializer token)) 200), w))
  ∧ (∀ token obj,
       token ∈ tokens w → user_id token = pk obj →
       tokens (RegistrationView_post_save settings request obj w).2
       = tokens w)
  ∧ (∀ token serializer,
       token ∈ tokens w →
       user_id token = pk (user (attrs serializer)) →
       LOGIN_AFTER_ACTIVATION settings = true →
       ∃ w', ActivationView_action settings serializer w
             = (Ok (mkResponse (Fields (TokenSerializer token)) 200), w')
             ∧ tokens w' = tokens w)
  ∧ (∀ serializer, ∃ token w1,
       LoginView_action serializer w
       = (Ok (mkResponse (Fields (TokenSerializer token)) 200), w1)
       ∧ LoginView_action serializer w1
         = (Ok (mkResponse (Fields (TokenSerializer token)) 200), w1)).
Proof.
  intros Hone. repeat split.
  - intros op. by apply run_one_to_one.
  - intros w'. by apply reachable_one_to_one.
  - intros token serializer Hin Hid.
    unfold LoginView_action.
    rewrite (bind_ok _ _ w w (token, false)); [done|].
    apply get_or_create_existing. by apply tokens_of_existing.
  - intros token obj Hin Hid. rewrite post_save_tokens.
    destruct (LOGIN_AFTER_REGISTRATION settings); [|done].
    rewrite (get_or_create_existing obj token); [done|].
    by apply tokens_of_existing.
  - intros token serializer Hin Hid Hlogin.
    destruct (activation_action_ok serializer w Hlogin Hone)
      as (t & c & w' & Hget & Hact & _ & Hsame).
    rewrite (get_or_create_existing _ token) in Hget
      by by apply tokens_of_existing.
    injection Hget as <- <- <-. by eexists.
  - intros serializer.
    destruct (login_action_ok serializer w Hone)
      as (token & w1 & Hfirst & _ & Hrow & _).
    exists token, w1. split; [done|].
    unfold LoginView_action.
    by rewrite (bind_ok _ _ w1 w1 (token, false))
      by by apply get_or_create_existing.
Qed.

(** C1: for every POST to one of the five views with the
    post-and-validate mixin: when the serializer reports the data
    invalid, the response is 400 with the serializer's errors as body,
    nothing is changed, and the same holds with any other method in
    place of the view's action, which is therefore not run; when the
    data is valid, the outcome is exactly that of the view's action on
    the serializer. *)
Theorem post_validates_then_acts self request w :
  Local PostActionViewMixin ∈ bases (Handler self) →
  (is_valid (get_serializer (get_serializer_class settings self) request w)
   = false →
   PostActionViewMixin_post settings self request w
   = (Ok (mkResponse
            (Errors (errors (get_serializer
                               (get_serializer_class settings self)
                               request w)))
            400), w)
   ∧ ∀ other : Serializer (view_attrs self) → M Response,
       PostActionViewMixin_post_with (get_serializer_class settings self)
                                     other request w
       = PostActionViewMixin_post settings self request w)
  ∧ (is_valid (get_serializer (get_serializer_class settings self) request w)
     = true →
     PostActionViewMixin_post settings self request w
     = action settings self request
         (get_serializer (get_serializer_class settings self) request w) w).
Proof.
  intros _.
  unfold PostActionViewMixin_post, PostActionViewMixin_post_with.
  split; intros Hvalid.
  - split; [|intros other];
      rewrite !(bind_ok _ _ w w
                  (get_serializer (get_serializer_class settings self)
                                  request w)) by done;
      by rewrite Hvalid.
  - rewrite (bind_ok _ _ w w
               (get_serializer (get_serializer_class settings self)
                               request w)) by done.
    by rewrite Hvalid.
Qed.

(** Saving a renamed user: refused exactly when the name is new and a
    row of another user holds it. *)
Lemma unique_violation_free (loaded u : User) (rows : list User) :
  (∀ r, r ∈ rows → pk r ≠ pk u → get_username r ≠ get_username u) →
  unique_violation loaded u rows = false.
Proof.
  intros Hfree. unfold unique_violation.
  replace (existsb _ rows) with false; [apply andb_false_r|].
  symmetry. apply not_true_is_false.
  intros (r & Hr & Hcond)%existsb_exists.
  apply andb_prop in Hcond as [Hpk%negb_true_iff Hname].
  apply bool_decide_eq_false in Hpk. apply bool_decide_eq_true in Hname.
  apply list_elem_of_In in Hr. by apply (Hfree r).
Qed.

Lemma unique_violation_taken (loaded u r : User) (rows : list User) :
  get_username u ≠ get_username loaded →
  r ∈ rows → pk r ≠ pk u → get_username r = get_username u →
  unique_violation loaded u rows = true.
Proof.
  intros Hnew Hr Hpk Hname. unfold unique_violation.
  rewrite (bool_decide_eq_false_2 _ Hnew). cbn [negb andb].
  apply existsb_exists. exists r. split; [by apply list_elem_of_In|].
  rewrite (bool_decide_eq_false_2 _ Hpk).
  by rewrite (bool_decide_eq_true_2 _ Hname).
Qed.

(** C8: for every successful set-password, password-reset-confirm and
    set-username action on a user who has a row in the user table under
    a key of its own: the response is 200 with no body; the row of that
    user becomes the user with only the password (for the two password
    actions) or only the field named by [USERNAME_FIELD] (for
    set-username) replaced, every other row stays as it was and where
    it was, and tokens and outbox are unchanged.  The two password
    actions always succeed; set-username succeeds when no other user
    holds the new name, and is refused with nothing changed when the
    name is new and another user holds it. *)
Theorem only_target_field_changes request w (u : User) :
  u ∈ users w →
  (∀ r, r ∈ users w → pk r = pk u → r = u) →
  (∀ serializer, request_user request = Some u →
     ∃ u' w',
       SetPasswordView_action request serializer w
       = (Ok (mkResponse NoData 200), w')
       ∧ users w' = (λ r, if decide (r = u) then u' else r) <$> users w
       ∧ password u'
         = make_password (entropy w) (new_password (attrs serializer))
       ∧ pk u' = pk u ∧ email u' = email u ∧ username u' = username u
       ∧ is_active u' = is_active u
       ∧ tokens w' = tokens w ∧ outbox w' = outbox w)
  ∧ (∀ serializer, reset_user (attrs serializer) = u →
       ∃ u' w',
         PasswordResetConfirmView_action serializer w
         = (Ok (mkResponse NoData 200), w')
         ∧ users w' = (λ r, if decide (r = u) then u' else r) <$> users w
         ∧ password u'
           = make_password (entropy w)
                           (reset_new_password (attrs serializer))
         ∧ pk u' = pk u ∧ email u' = email u ∧ username u' = username u
         ∧ is_active u' = is_active u
         ∧ tokens w' = tokens w ∧ outbox w' = outbox w)
  ∧ (∀ serializer, request_user request = Some u →
       ∃ u',
         match USERNAME_FIELD with
         | username_field =>
             username u' = new_username (attrs serializer)
             ∧ email u' = email u
         | email_field =>
             email u' = new_username (attrs serializer)
             ∧ username u' = username u
         end
         ∧ pk u' = pk u ∧ password u' = password u
         ∧ is_active u' = is_active u
         ∧ (∀ resp w',
              SetUsernameView_action request serializer w = (Ok resp, w') →
              resp = mkResponse NoData 200
              ∧ users w' = (λ r, if decide (r = u) then u' else r) <$> users w
              ∧ tokens w' = tokens w ∧ outbox w' = outbox w)
         ∧ ((∀ r, r ∈ users w → pk r ≠ pk u →
                  get_username r ≠ get_username u') →
            ∃ w', SetUsernameView_action request serializer w
                  = (Ok (mkResponse NoData 200), w'))
         ∧ (get_username u' ≠ get_username u →
            (∃ r, r ∈ users w ∧ pk r ≠ pk u
                  ∧ get_username r = get_username u') →
            SetUsernameView_action request serializer w
            = (Raise IntegrityError, w))).
Proof.
  intros Hin Hkey.
  assert (Hsave : ∀ u', pk u' = pk u →
    save_row u' (users w) = (λ r, if decide (r = u) then u' else r) <$> users w).
  { intros u' Hpk. by apply save_row_replaces. }
  split; [|split].
  - intros serializer Huser.
    eexists _, _. split.
    { unfold SetPasswordView_action, authenticated_user. rewrite Huser.
      rewrite (bind_ok _ _ w w u) by done.
      erewrite bind_ok by reflexivity.
      erewrite bind_ok
        by (apply save_same_username;
            by apply (get_username_set_password u _ w _ _ eq_refl)).
      reflexivity. }
    cbn [users tokens outbox password pk email username is_active].
    by rewrite Hsave.
  - intros serializer <-.
    eexists _, _. split.
    { unfold PasswordResetConfirmView_action.
      erewrite bind_ok by reflexivity.
      erewrite bind_ok
        by (apply save_same_username;
            by apply (get_username_set_password _ _ w _ _ eq_refl)).
      reflexivity. }
    cbn [users tokens outbox password pk email username is_active].
    by rewrite Hsave.
  - intros serializer Huser.
    set (u' := setattr_username_field u (new_username (attrs serializer))).
    assert (Hpk : pk u' = pk u)
      by (unfold u', setattr_username_field; by case_match).
    assert (Hact : SetUsernameView_action request serializer w
                   = if unique_violation u u' (users w)
                     then (Raise IntegrityError, w)
                     else (Ok (mkResponse NoData 200),
                           mkWorld (save_row u' (users w)) (tokens w)
                                   (outbox w) (today w) (entropy w))).
    { unfold SetUsernameView_action, authenticated_user. rewrite Huser.
      rewrite (bind_ok _ _ w w u) by done. fold u'.
      unfold bind, save, ret. by destruct (unique_violation _ _ _). }
    exists u'. split; [|split; [done|split; [|split; [|split; [|split]]]]].
    + unfold u', setattr_username_field. by destruct USERNAME_FIELD.
    + unfold u', setattr_username_field. by destruct USERNAME_FIELD.
    + unfold u', setattr_username_field. by destruct USERNAME_FIELD.
    + intros resp w'. rewrite Hact.
      destruct (unique_violation _ _ _); [done|].
      intros [= <- <-]. cbn [users tokens outbox]. by rewrite Hsave.
    + intros Hfree. rewrite Hact, unique_violation_free; [by eexists|].
      intros r Hr Hother. apply Hfree; [done|]. by rewrite <- Hpk.
    + intros Hnew (r & Hr & Hother & Hname). rewrite Hact.
      rewrite (unique_violation_taken u u' r); [done..|by rewrite Hpk|done].
Qed.
End Actions.

(** ** The properties at work on the concrete framework *)

Lemma demo_world_one_to_one : one_token_per_user (tokens demo_world).
Proof.
  intros u. unfold tokens_of. cbn [tokens demo_world].
  rewrite filter_cons, filter_nil. case_decide; simpl; lia.
Defined.

Lemma post_validates_then_acts_witness :
  Local PostActionViewMixin ∈ bases (Handler LoginView)
  ∧ is_valid (@get_serializer demo _ UserLoginSerializer bad_request demo_world)
    = false
  ∧ @PostActionViewMixin_post demo demo_settings LoginView bad_request
      demo_world
    = (Ok (mkResponse
             (Errors {[lit "non_field_errors" := [lit "invalid"]]}) 400),
       demo_world).
Proof.
  split; [apply list_elem_of_here|]. split; [reflexivity|].
  apply (@post_validates_then_acts demo demo_settings LoginView bad_request
           demo_world).
  - apply list_elem_of_here.
  - reflexivity.
Defined.


Lemma one_token_per_user_kept_witness :
  one_token_per_user (tokens demo_world)
  ∧ one_token_per_user
      (tokens (@run demo demo_settings (PostSave (demo_request "x") alice)
                 (@run demo demo_settings
                    (PostAction LoginView (demo_request "x")) demo_world))).
Proof.
  split; [exact demo_world_one_to_one|].
  apply (@one_token_per_user_kept demo demo_settings (demo_request "x")
           demo_world demo_world_one_to_one).
  apply reachable_step, reachable_step, reachable_start.
Defined.


Lemma email_token_made_for_recipient_witness :
  well_configured demo_settings = true
  ∧ ∃ kwargs : SendEmailKwargs,
      @get_send_email_kwargs demo demo_settings RegistrationView
        (demo_request "x") bob demo_world = (Ok kwargs, demo_world)
      ∧ context kwargs !! lit "token"
        = Some (VStr (@make_token demo bob (today demo_world))).
Proof.
  split; [reflexivity|].
  destruct (@email_token_made_for_recipient demo demo_settings
              RegistrationView (demo_request "x") bob demo_world
              (or_introl eq_refl) eq_refl)
    as (_ & _ & _ & kwargs & _ & _ & Hkw & _ & _ & _ & _ & Htoken).
  exists kwargs. split; [exact Hkw|exact Htoken].
Defined.


Lemma login_returns_token_witness :
  is_valid (@get_serializer demo _ UserLoginSerializer (demo_request "x")
              demo_world) = true
  ∧ one_token_per_user (tokens demo_world)
  ∧ ∃ (token : Token) (w' : World),
      @PostActionViewMixin_post demo demo_settings LoginView
        (demo_request "x") demo_world
      = (Ok (mkResponse (Fields (@TokenSerializer demo token)) 200), w')
      ∧ user_id token = 1%Z.
Proof.
  split; [reflexivity|]. split; [exact demo_world_one_to_one|].
  destruct (@login_returns_token demo demo_settings (demo_request "x")
              demo_world eq_refl demo_world_one_to_one)
    as (token & w' & Hpost & Hid & _).
  exists token, w'. split; [exact Hpost|exact Hid].
Defined.

Lemma only_target_field_changes_witness :
  alice ∈ users demo_world
  ∧ (∀ r, r ∈ users demo_world → pk r = pk alice → r = alice)
  ∧ (∃ (u' : User) (w' : World),
       @SetPasswordView_action demo (demo_request "secret")
         (@get_serializer demo _ SetPasswordSerializer (demo_request "secret")
            demo_world) demo_world
       = (Ok (mkResponse NoData 200), w')
       ∧ email u' = email alice ∧ username u' = username alice)
  ∧ (∃ w' : World,
       @SetUsernameView_action demo (demo_request "alicia")
         (@get_serializer demo _ SetUsernameSerializer (demo_request "alicia")
            demo_world) demo_world
       = (Ok (mkResponse NoData 200), w'))
  ∧ @SetUsernameView_action demo (demo_request "bob")
      (@get_serializer demo _ SetUsernameSerializer (demo_request "bob")
         demo_world) demo_world
    = (Raise IntegrityError, demo_world).
Proof.
  assert (Hkey : ∀ r, r ∈ users demo_world → pk r = pk alice → r = alice).
  { intros r Hr Hpk. cbn [users demo_world] in Hr.
    apply elem_of_cons in Hr as [->|Hr]; [reflexivity|].
    apply elem_of_cons in Hr as [->|Hr]; [discriminate Hpk|].
    apply elem_of_cons in Hr as [->|Hr]; [discriminate Hpk|].
    by apply elem_of_nil in Hr. }
  split; [apply list_elem_of_here|]. split; [exact Hkey|].
  split; [|split].
  - destruct (@only_target_field_changes demo (demo_request "secret")
                demo_world alice (list_elem_of_here _ _) Hkey)
      as (Hset & _).
    destruct (Hset (@get_serializer demo _ SetPasswordSerializer
                      (demo_request "secret") demo_world) eq_refl)
      as (u' & w' & Hact & _ & _ & _ & Hemail & Hname & _).
    exists u', w'. split; [exact Hact|]. split; [exact Hemail|exact Hname].
  - destruct (@only_target_field_changes demo (demo_request "alicia")
                demo_world alice (list_elem_of_here _ _) Hkey)
      as (_ & _ & Hname).
    destruct (Hname (@get_serializer demo _ SetUsernameSerializer
                       (demo_request "alicia") demo_world) eq_refl)
      as (u' & [Hnew _] & _ & _ & _ & _ & Hfree & _).
    apply Hfree. intros r Hr _ Htaken.
    unfold get_username in Htaken. cbn [USERNAME_FIELD demo] in Htaken.
    rewrite Hnew in Htaken. cbn [users demo_world] in Hr.
    apply elem_of_cons in Hr as [->|Hr]; [discriminate Htaken|].
    apply elem_of_cons in Hr as [->|Hr]; [discriminate Htaken|].
    apply elem_of_cons in Hr as [->|Hr]; [discriminate Htaken|].
    by apply elem_of_nil in Hr.
  - destruct (@only_target_field_changes demo (demo_request "bob")
                demo_world alice (list_elem_of_here _ _) Hkey)
      as (_ & _ & Hname).
    destruct (Hname (@get_serializer demo _ SetUsernameSerializer
                       (demo_request "bob") demo_world) eq_refl)
      as (u' & [Hnew _] & _ & _ & _ & _ & _ & Htaken).
    apply Htaken.
    + unfold get_username. cbn [USERNAME_FIELD demo]. rewrite Hnew.
      discriminate.
    + exists bob. split; [apply list_elem_of_further, list_elem_of_here|].
      split; [discriminate|].
      unfold get_username. cbn [USERNAME_FIELD demo]. rewrite Hnew.
      reflexivity.
Defined.

(** A template that names a field the mixin does not pass cannot be used:
    the mixin formats [ACTIVATION_URL] with [uid] and [token] alone, so
    preparing an email raises [KeyError], for the password-reset view as
    well, while a request that matches no user is still answered. *)
Example activation_url_with_domain_raises :
  well_configured domain_settings = false
  ∧ @PasswordResetView_post demo domain_settings
      (demo_request "alice@example.com") demo_world
    = (Raise (KeyError (lit "domain")), demo_world)
  ∧ @PasswordResetView_post demo domain_settings
      (demo_request "nobody@example.com") demo_world
    = (Ok (mkResponse NoData 200), demo_world).
Proof. by vm_compute. Qed.

(** * Further properties of the views *)

(** ** Password reset requests *)

Lemma iexact_refl (a : str) : iexact a a = true.
Proof. unfold iexact. by apply bool_decide_eq_true. Qed.

Lemma iexact_trans_r (a b c : str) :
  iexact b c = true → iexact a b = iexact a c.
Proof.
  unfold iexact. intros Hbc%bool_decide_eq_true. by rewrite Hbc.
Qed.


Section ResetRequests.
Context `{Framework} (settings : Settings).


Lemma send_email_with_world kwargs w :
  ∃ new, (send_email_with settings kwargs w).2 = with_message w new.
Proof.
  unfold send_email_with.
  destruct (subject_template_name kwargs) as [subject_name|];
    [destruct (plain_body_template_name kwargs) as [body_name|]|];
    try (exists []; by rewrite with_message_nil).
  destruct (send_email_message settings (to_email kwargs) (from_email kwargs)
              (context kwargs) subject_name body_name
              (html_body_template_name kwargs) w) as (m & -> & _).
  by exists [m].
Qed.

Lemma reset_emails_world request (found : list User) :
  ∀ w, ∃ new,
    (for_each found (λ u,
       kwargs <- get_send_email_kwargs settings PasswordResetView request u ;;
       send_email_with settings kwargs) w).2 = with_message w new.
Proof.
  induction found as [|u found IH]; intros w.
  { exists []. by rewrite with_message_nil. }
  cbn [for_each].
  pose proof (get_send_email_kwargs_world settings PasswordResetView request
                u w) as Hw.
  destruct (get_send_email_kwargs settings PasswordResetView request u w)
    as [[kwargs|e] w'] eqn:Hkw; simpl in Hw; subst w'.
  - destruct (send_email_with_world kwargs w) as [new Hnew].
    destruct (send_email_with settings kwargs w) as [[[]|e] w'] eqn:Hsend;
      simpl in Hnew; subst w'.
    + rewrite (bind_ok _ _ w (with_message w new) tt)
        by by rewrite (bind_ok _ _ _ _ _ Hkw).
      destruct (IH (with_message w new)) as [more ->].
      exists (new ++ more). by rewrite with_message_app.
    + exists new.
      by rewrite (bind_raise _ _ w (with_message w new) e)
        by by rewrite (bind_ok _ _ _ _ _ Hkw).
  - exists []. rewrite with_message_nil.
    by rewrite (bind_raise _ _ w w e)
      by by rewrite (bind_raise _ _ _ _ _ Hkw).
Qed.

(** [post] of the password-reset view, with the serializer bound and the
    two filters of [get_users] taken together. *)
Lemma password_reset_post_unfold request w :
  PasswordResetView_post settings request w
  = if is_valid (get_serializer PasswordResetSerializer request w)
    then bind (for_each
                 (List.filter
                    (reset_candidate
                       (data_email
                          (attrs (get_serializer PasswordResetSerializer
                                    request w))))
                    (users w))
                 (λ u,
                    kwargs <- get_send_email_kwargs settings PasswordResetView
                                request u ;;
                    send_email_with settings kwargs))
              (λ _, ret (mkResponse NoData HTTP_200_OK)) w
    else (Ok (mkResponse
                (Errors (errors (get_serializer PasswordResetSerializer
                                   request w)))
                HTTP_400_BAD_REQUEST), w).
Proof.
  unfold PasswordResetView_post.
  rewrite (bind_ok _ _ w w (get_serializer PasswordResetSerializer request w))
    by done.
  destruct (is_valid _); [|done].
  unfold PasswordResetView_get_users.
  erewrite bind_ok by reflexivity.
  rewrite filter_twice. done.
Qed.

(** X2: a valid password-reset POST for an address that no active user
    with a usable password has is answered with 200 and changes nothing,
    whatever the URL templates are. *)
Theorem password_reset_no_candidate request w :
  is_valid (get_serializer PasswordResetSerializer request w) = true →
  (∀ u, u ∈ users w →
     reset_candidate
       (data_email (attrs (get_serializer PasswordResetSerializer request w)))
       u = false) →
  PasswordResetView_post settings request w
  = (Ok (mkResponse NoData 200), w).
Proof.
  intros Hvalid Hnone. rewrite password_reset_post_unfold, Hvalid.
  replace (List.filter _ (users w)) with (@nil User); [done|].
  symmetry. induction (users w) as [|u rows IH]; [done|].
  cbn [List.filter]. rewrite Hnone by apply list_elem_of_here.
  apply IH. intros u' Hu'. apply Hnone. by apply list_elem_of_further.
Qed.


(** X4: [get_users] does not look at the case of the submitted address:
    two addresses that are equal up to case select the same users.  The
    users selected are those of the table, in row order, that are active,
    have a usable password and an address equal to the submitted one up
    to case; the lookup changes nothing. *)
Theorem get_users_ignores_case (address address' : str) w :
  iexact address address' = true →
  PasswordResetView_get_users address w
  = PasswordResetView_get_users address' w
  ∧ PasswordResetView_get_users address w
    = (Ok (List.filter (reset_candidate address) (users w)), w)
  ∧ ∀ u, u ∈ List.filter (reset_candidate address) (users w)
         ↔ u ∈ users w ∧ iexact (email u) address = true
           ∧ is_active u = true ∧ has_usable_password u = true.
Proof.
  intros Hcase.
  assert (Hsame : ∀ a, PasswordResetView_get_users a w
                       = (Ok (List.filter (reset_candidate a) (users w)), w)).
  { intros a. unfold PasswordResetView_get_users. by rewrite filter_twice. }
  split; [|split; [apply Hsame|]].
  - rewrite !Hsame. do 2 f_equal. apply List.filter_ext. intros u.
    unfold reset_candidate. by rewrite (iexact_trans_r _ _ _ Hcase).
  - intros u. rewrite list_elem_of_In, List.filter_In, <- list_elem_of_In.
    unfold reset_candidate. rewrite !andb_true_iff. tauto.
Qed.

(** X5: a password-reset POST never writes to the user table or the
    token table, and never removes a message: whatever the payload and
    the settings, and whether it answers or raises, the world afterwards
    is the world before with the messages it has sent added. *)
Theorem password_reset_only_sends request w :
  ∃ new : list EmailMessage,
    (PasswordResetView_post settings request w).2
    = mkWorld (users w) (tokens w) (outbox w ++ new) (today w) (entropy w).
Proof.
  rewrite password_reset_post_unfold.
  destruct (is_valid _).
  - destruct (reset_emails_world request
                (List.filter
                   (reset_candidate
                      (data_email
                         (attrs (get_serializer PasswordResetSerializer
                                   request w))))
                   (users w)) w) as [new Hnew].
    exists new. unfold bind at 1.
    destruct (for_each _ _ w) as [[[]|e] w']; simpl in Hnew; by subst w'.
  - exists []. destruct w. simpl. by rewrite app_nil_r.
Qed.
End ResetRequests.

(** ** Email contexts and messages *)

Lemma filter_no_linebreak (s : str) :
  Forall (λ c, is_linebreak c = false) s →
  List.filter (λ c, negb (is_linebreak c)) s = s.
Proof.
  induction 1 as [|c s Hc _ IH]; [done|].
  cbn [List.filter]. by rewrite Hc, IH.
Qed.

Section EmailContexts.
Context `{Framework} (settings : Settings).

(** X6: the override of [get_email_context] in the registration view
    computes the link the mixin has already computed: for every request
    and user it gives the outcome of the mixin's method, be it a context
    or an exception. *)
Theorem registration_context_is_mixin_context request u w :
  get_email_context settings RegistrationView request u w
  = SendEmailViewMixin_get_email_context settings RegistrationView request u w.
Proof.
  cbn [get_email_context].
  unfold SendEmailViewMixin_get_email_context, bind, lift, ret.
  cbn [token_generator].
  change (<[lit "uid" := VStr (encode_uid (pk u))]>
            (<[lit "token" := VStr (make_token u (today w))]> ∅))
    with (uid_and_token (encode_uid (pk u)) (make_token u (today w))).
  destruct (format (ACTIVATION_URL settings)
              (uid_and_token (encode_uid (pk u)) (make_token u (today w))))
    as [url|e] eqn:Hurl; [|done].
  change (<[lit "user" := _]> _)
    with (mixin_context settings request u (make_token u (today w)) url).
  unfold format in *.
  rewrite (format_from_weaken _ _ _ _
             (uid_and_token_subseteq settings request u _ url) _ _ Hurl).
  rewrite insert_id; [done|]. unfold mixin_context. by lookup_key.
Qed.

(** X7: with usable URL templates, the context that the registration
    and password-reset views prepare for a user has exactly the seven
    keys [user], [domain], [site_name], [url], [uid], [token] and
    [protocol]; the protocol is [https] exactly for a secure request,
    domain and site name are the configured ones, and preparing the
    context changes nothing. *)
Theorem email_context_shape self request u w :
  self = RegistrationView ∨ self = PasswordResetView →
  well_configured settings = true →
  ∃ ctx : Context,
    get_email_context settings self request u w = (Ok ctx, w)
    ∧ dom ctx = list_to_set context_keys
    ∧ ctx !! lit "user" = Some (VUser u)
    ∧ ctx !! lit "domain" = Some (VStr (DOMAIN settings))
    ∧ ctx !! lit "site_name" = Some (VStr (SITE_NAME settings))
    ∧ ctx !! lit "protocol"
      = Some (VStr (if is_secure request then lit "https" else lit "http")).
Proof.
  intros Hself Hconf.
  destruct (get_email_context_ok settings self request u w Hself Hconf)
    as (url0 & url & _ & Hctx).
  eexists. split; [exact Hctx|]. unfold mixin_context.
  split; [|repeat split; by lookup_key].
  rewrite !dom_insert_L, dom_empty_L. unfold context_keys.
  cbn [list_to_set foldr]. set_solver.
Qed.


(** X9: [send_email] changes the subject only where it must: a rendered
    subject without line boundaries is the subject of the message as it
    is, and the body is the rendered body, line breaks included.  The
    sender is the one given, and [DEFAULT_FROM_EMAIL] when none or an
    empty one is given. *)
Theorem clean_subject_unchanged to_email from_email context subject_name
    body_name html_name w :
  Forall (λ c, is_linebreak c = false)
         (render_to_string subject_name context) →
  ∃ m,
    send_email settings to_email from_email context subject_name body_name
               html_name w
    = (Ok tt, mkWorld (users w) (tokens w) (outbox w ++ [m])
                      (today w) (entropy w))
    ∧ m_subject m = render_to_string subject_name context
    ∧ m_body m = render_to_string body_name context
    ∧ m_to m = [to_email]
    ∧ m_from m = match from_email with
                 | Some [] | None => DEFAULT_FROM_EMAIL settings
                 | Some sender => Some sender
                 end.
Proof.
  intros Hclean.
  destruct (send_email_message settings to_email from_email context
              subject_name body_name html_name w)
    as (m & Hsend & Hsubject & Hbody & Hfrom & Hto).
  exists m. split; [done|]. split; [|split; [done|split; [done|]]].
  - by rewrite Hsubject, join_splitlines, filter_no_linebreak.
  - rewrite Hfrom. by destruct from_email as [[|c sender]|].
Qed.

(** X17: the two sending views send plain text only: with usable URL
    templates, the keyword arguments built for a user name the view's own
    pair of templates and no HTML template, the sender is
    [DEFAULT_FROM_EMAIL], and the message handed to the transport goes to
    the user's address alone and carries no alternative part. *)
Theorem sending_views_send_plain_text self request u w :
  self = RegistrationView ∨ self = PasswordResetView →
  well_configured settings = true →
  ∃ kwargs m,
    get_send_email_kwargs settings self request u w = (Ok kwargs, w)
    ∧ from_email kwargs = DEFAULT_FROM_EMAIL settings
    ∧ subject_template_name kwargs
      = Some (match self with
              | PasswordResetView => lit "password_reset_email_subject.txt"
              | _ => lit "activation_email_subject.txt"
              end)
    ∧ plain_body_template_name kwargs
      = Some (match self with
              | PasswordResetView => lit "password_reset_email_body.txt"
              | _ => lit "activation_email_body.txt"
              end)
    ∧ html_body_template_name kwargs = None
    ∧ send_email_with settings kwargs w
      = (Ok tt, mkWorld (users w) (tokens w) (outbox w ++ [m])
                        (today w) (entropy w))
    ∧ m_from m = DEFAULT_FROM_EMAIL settings
    ∧ m_to m = [email u]
    ∧ m_alternatives m = [].
Proof.
  intros Hself Hconf.
  destruct (get_email_context_ok settings self request u w Hself Hconf)
    as (url0 & url & _ & Hctx).
  destruct Hself as [-> | ->]; eexists _, _; (split;
    [cbn [get_send_email_kwargs];
     unfold SendEmailViewMixin_get_send_email_kwargs;
     erewrite bind_ok; [|erewrite bind_ok by exact Hctx; reflexivity];
     reflexivity|]);
    cbn [from_email subject_template_name plain_body_template_name
         html_body_template_name to_email context];
    do 4 (split; [reflexivity|]);
    (split; [reflexivity|]); cbn;
    (split; [by destruct (DEFAULT_FROM_EMAIL settings) as [[|c sender]|]|]);
    done.
Qed.
End EmailContexts.

(** ** Tokens, activation and passwords *)

Lemma save_row_pk_exists (x : User) (rows : list User) :
  existsb (λ r, bool_decide (pk r = pk x)) (save_row x rows) = true.
Proof.
  unfold save_row.
  destruct (existsb _ rows) eqn:Hex.
  - apply existsb_exists in Hex as (r & Hr & Hpk).
    apply existsb_exists. exists x. split.
    + apply List.in_map_iff. exists r. by rewrite Hpk.
    + by apply bool_decide_eq_true.
  - rewrite existsb_app. cbn [existsb].
    rewrite (bool_decide_eq_true_2 (pk x = pk x)) by done.
    by rewrite orb_true_r.
Qed.

(** Saving the same instance twice is saving it once. *)
Lemma save_row_idempotent (x : User) (rows : list User) :
  save_row x (save_row x rows) = save_row x rows.
Proof.
  unfold save_row at 1. rewrite save_row_pk_exists.
  unfold save_row. destruct (existsb _ rows) eqn:Hex.
  - rewrite <- list_fmap_compose. apply list_fmap_ext. intros i r _. simpl.
    destruct (bool_decide (pk r = pk x)) eqn:Hr; [|by rewrite Hr].
    by rewrite (bool_decide_eq_true_2 (pk x = pk x)).
  - rewrite fmap_app. cbn [fmap list_fmap].
    rewrite (bool_decide_eq_true_2 (pk x = pk x)) by done. f_equal.
    rewrite <- (list_fmap_id rows) at 2. apply list_fmap_ext. intros i r Hr.
    simpl. case_bool_decide as Hpk; [|done].
    assert (existsb (λ r, bool_decide (pk r = pk x)) rows = true);
      [|congruence].
    apply existsb_exists. exists r. split.
    + by apply list_elem_of_In, list_elem_of_lookup_2 with i.
    + by apply bool_decide_eq_true.
Qed.

Lemma tokens_of_other (u : User) (rows : list Token) (token : Token) :
  user_id token ≠ pk u → tokens_of u (rows ++ [token]) = tokens_of u rows.
Proof.
  intros Hother. rewrite tokens_of_app. unfold tokens_of at 2.
  rewrite filter_cons, filter_nil. case_decide; [done|apply app_nil_r].
Qed.

Section TokensAndActivation.
Context `{Framework} (settings : Settings).

(** X10: with usable URL templates and a one-to-one token table,
    [post_save] of the registration view succeeds and leaves the user
    table alone; it sends one activation email, to the address of the new
    user, exactly when [SEND_ACTIVATION_EMAIL] is set, and the new user
    has exactly one token afterwards when [LOGIN_AFTER_REGISTRATION] is
    set, while the token table is untouched when it is not. *)
Theorem post_save_effects request obj w :
  one_token_per_user (tokens w) →
  well_configured settings = true →
  ∃ w' : World,
    RegistrationView_post_save settings request obj w = (Ok tt, w')
    ∧ users w' = users w
    ∧ (if SEND_ACTIVATION_EMAIL settings
       then ∃ m, outbox w' = outbox w ++ [m] ∧ m_to m = [email obj]
       else outbox w' = outbox w)
    ∧ (if LOGIN_AFTER_REGISTRATION settings
       then ∃ token, tokens_of obj (tokens w') = [token]
       else tokens w' = tokens w).
Proof.
  intros Hone Hconf. unfold RegistrationView_post_save.
  assert (∃ w1, (if LOGIN_AFTER_REGISTRATION settings
                 then get_or_create obj ;;; ret tt else ret tt) w
                = (Ok tt, w1)
                ∧ users w1 = users w ∧ outbox w1 = outbox w
                ∧ (if LOGIN_AFTER_REGISTRATION settings
                   then ∃ token, tokens_of obj (tokens w1) = [token]
                   else tokens w1 = tokens w))
    as (w1 & Hfirst & Husers & Hout & Htok).
  { destruct (LOGIN_AFTER_REGISTRATION settings).
    - destruct (get_or_create_ok obj w Hone)
        as (token & created & w1 & Hget & _ & Hrow & _ & ? & ? & _).
      exists w1. rewrite (bind_ok _ _ _ _ _ Hget). eauto 10.
    - by exists w. }
  rewrite (bind_ok _ _ _ _ _ Hfirst).
  destruct (SEND_ACTIVATION_EMAIL settings).
  - destruct (send_email_for_user settings RegistrationView request obj w1
                (or_introl eq_refl) Hconf)
      as (kwargs & _ & m & Hkw & _ & _ & _ & Hsend & Hto & _).
    exists (with_message w1 [m]).
    rewrite (bind_ok _ _ _ _ _ Hkw), Hsend. cbn [with_message users outbox tokens].
    split; [done|]. split; [done|]. split; [|done].
    exists m. by rewrite Hout.
  - by exists w1.
Qed.

(** X11: a login of a user without a token adds exactly one row to the
    token table, owned by that user and with a newly generated key, and
    answers with its serialization; the tokens of every other user, the
    user table and the outbox stay as they were. *)
Theorem login_issues_new_token (serializer : Serializer LoginAttrs) w :
  tokens_of (object (attrs serializer)) (tokens w) = [] →
  ∃ (token : Token) (w' : World),
    LoginView_action serializer w
    = (Ok (mkResponse (Fields (TokenSerializer token)) 200), w')
    ∧ token = mkToken (generate_key (entropy w))
                      (pk (object (attrs serializer)))
    ∧ tokens w' = tokens w ++ [token]
    ∧ users w' = users w ∧ outbox w' = outbox w
    ∧ ∀ u', pk u' ≠ pk (object (attrs serializer)) →
            tokens_of u' (tokens w') = tokens_of u' (tokens w).
Proof.
  intros Hnone. eexists _, _. split.
  { unfold LoginView_action. erewrite bind_ok; [reflexivity|].
    unfold get_or_create. rewrite Hnone. reflexivity. }
  cbn [fst tokens users outbox]. do 4 (split; [done|]).
  intros u' Hother. apply tokens_of_other. cbn [user_id]. congruence.
Qed.

Lemma activation_saves (serializer : Serializer UidAndTokenAttrs) w :
  one_token_per_user (tokens w) →
  ∃ resp w',
    ActivationView_action settings serializer w = (Ok resp, w')
    ∧ status resp = 200%Z
    ∧ users w' = save_row (activated (user (attrs serializer))) (users w)
    ∧ outbox w' = outbox w
    ∧ one_token_per_user (tokens w')
    ∧ (if LOGIN_AFTER_ACTIVATION settings
       then ∃ token, data resp = Fields (TokenSerializer token)
                     ∧ tokens_of (user (attrs serializer)) (tokens w')
                       = [token]
       else data resp = Fields ∅ ∧ tokens w' = tokens w).
Proof.
  intros Hone. unfold ActivationView_action.
  fold (activated (user (attrs serializer))).
  erewrite bind_ok by apply save_same_username, get_username_activated.
  destruct (LOGIN_AFTER_ACTIVATION settings).
  - set (w1 := mkWorld _ (tokens w) (outbox w) (today w) (entropy w)).
    destruct (get_or_create_ok (activated (user (attrs serializer))) w1 Hone)
      as (token & created & w' & Hget & _ & Hrow & Hone' & Hu & Ho & _).
    eexists _, w'. rewrite (bind_ok _ _ _ _ _ Hget). split; [done|].
    cbn [status data fst]. do 4 (split; [done|]).
    exists token. split; [done|].
    by rewrite (tokens_of_same_key _ (activated (user (attrs serializer)))).
  - eexists _, _. split; [reflexivity|]. by cbn.
Qed.

(** X12: activation sets the activity flag of the user and nothing else:
    for a user that has a row under a key of its own, the row becomes the
    user with [is_active] set and every other row stays as it was; the
    outbox is untouched; the answer is 200, with an empty dictionary and
    an unchanged token table when [LOGIN_AFTER_ACTIVATION] is off, and
    with the user's one token when it is on. *)
Theorem activation_sets_only_the_flag
    (serializer : Serializer UidAndTokenAttrs) w :
  user (attrs serializer) ∈ users w →
  (∀ r, r ∈ users w → pk r = pk (user (attrs serializer)) →
        r = user (attrs serializer)) →
  one_token_per_user (tokens w) →
  ∃ resp w',
    ActivationView_action settings serializer w = (Ok resp, w')
    ∧ status resp = 200%Z
    ∧ users w'
      = (λ r, if decide (r = user (attrs serializer))
              then activated (user (attrs serializer)) else r) <$> users w
    ∧ is_active (activated (user (attrs serializer))) = true
    ∧ pk (activated (user (attrs serializer))) = pk (user (attrs serializer))
    ∧ email (activated (user (attrs serializer)))
      = email (user (attrs serializer))
    ∧ username (activated (user (attrs serializer)))
      = username (user (attrs serializer))
    ∧ password (activated (user (attrs serializer)))
      = password (user (attrs serializer))
    ∧ outbox w' = outbox w
    ∧ (if LOGIN_AFTER_ACTIVATION settings
       then ∃ token, data resp = Fields (TokenSerializer token)
                     ∧ tokens_of (user (attrs serializer)) (tokens w')
                       = [token]
       else data resp = Fields ∅ ∧ tokens w' = tokens w).
Proof.
  intros Hin Hkey Hone.
  destruct (activation_saves serializer w Hone)
    as (resp & w' & Hact & Hstatus & Husers & Hout & _ & Hlogin).
  exists resp, w'. split; [done|]. split; [done|]. split.
  { rewrite Husers. by apply save_row_replaces. }
  by repeat split.
Qed.

(** X13: activating twice is activating once: against a one-to-one token
    table, a second run of the activation action on the world the first
    one left gives the same answer and changes nothing further. *)
Theorem activation_idempotent (serializer : Serializer UidAndTokenAttrs) w :
  one_token_per_user (tokens w) →
  ∃ resp w',
    ActivationView_action settings serializer w = (Ok resp, w')
    ∧ ActivationView_action settings serializer w' = (Ok resp, w').
Proof.
  intros Hone.
  destruct (activation_saves serializer w Hone)
    as (resp & w' & Hact & Hstatus & Husers & _ & _ & Hlogin).
  exists resp, w'. split; [done|].
  assert (Hsaved : save (user (attrs serializer))
                         (activated (user (attrs serializer))) w'
                    = (Ok tt, w')).
  { rewrite save_same_username by apply get_username_activated.
    rewrite Husers, save_row_idempotent, <- Husers. by destruct w'. }
  unfold ActivationView_action in *.
  fold (activated (user (attrs serializer))) in *.
  rewrite (bind_ok _ _ _ _ _ Hsaved).
  erewrite bind_ok in Hact
    by apply save_same_username, get_username_activated.
  destruct (LOGIN_AFTER_ACTIVATION settings).
  - destruct Hlogin as (token & Hdata & Hrow).
    rewrite (tokens_of_same_key _ (activated (user (attrs serializer))))
      in Hrow by done.
    rewrite (bind_ok _ _ w' w' (token, false))
      by by apply get_or_create_existing.
    unfold ret. do 2 f_equal. destruct resp as [d s].
    cbn [data status] in Hdata, Hstatus. by subst d s.
  - destruct Hlogin as [Hdata _]. unfold ret. do 2 f_equal.
    destruct resp as [d s]. cbn [data status] in Hdata, Hstatus. by subst d s.
Qed.
End TokensAndActivation.

Section Composition.
Context `{Framework} (settings : Settings).

(** X14: activation is what makes a user reachable by password reset: a
    user that is not active is not among the users a reset request for
    its own address selects, and after the activation action the
    activated user is among them, provided it has a usable password. *)
Theorem activation_enables_password_reset
    (serializer : Serializer UidAndTokenAttrs) w :
  user (attrs serializer) ∈ users w →
  (∀ r, r ∈ users w → pk r = pk (user (attrs serializer)) →
        r = user (attrs serializer)) →
  one_token_per_user (tokens w) →
  is_active (user (attrs serializer)) = false →
  has_usable_password (user (attrs serializer)) = true →
  ∃ found resp w' found',
    PasswordResetView_get_users (email (user (attrs serializer))) w
    = (Ok found, w)
    ∧ (user (attrs serializer) ∉ found)
    ∧ ActivationView_action settings serializer w = (Ok resp, w')
    ∧ PasswordResetView_get_users (email (user (attrs serializer))) w'
      = (Ok found', w')
    ∧ activated (user (attrs serializer)) ∈ found'.
Proof.
  intros Hin Hkey Hone Hinactive Husable.
  set (u := user (attrs serializer)) in *.
  destruct (activation_saves settings serializer w Hone)
    as (resp & w' & Hact & _ & Husers & _).
  fold u in Husers.
  assert (Hget : ∀ w0, PasswordResetView_get_users (email u) w0
                 = (Ok (List.filter (reset_candidate (email u)) (users w0)),
                    w0)).
  { intros w0. unfold PasswordResetView_get_users. by rewrite filter_twice. }
  eexists _, resp, w', _. split; [apply Hget|]. split; [|split; [done|]].
  - rewrite list_elem_of_In, List.filter_In. intros [_ Hcand].
    unfold reset_candidate in Hcand. rewrite Hinactive in Hcand.
    by rewrite andb_false_r in Hcand.
  - split; [apply Hget|].
    rewrite list_elem_of_In, List.filter_In. split.
    + rewrite Husers, (save_row_replaces u) by done.
      apply List.in_map_iff. exists u. split; [by case_decide|].
      by apply list_elem_of_In.
    + unfold reset_candidate. cbn [activated email is_active].
      rewrite iexact_refl. exact Husable.
Qed.

(** X15: changing or resetting a password does not revoke the bearer
    token: when the user has a token, the set-password action and the
    password-reset-confirm action leave the token table as it was, and a
    login of that user afterwards answers with the same token. *)
Theorem password_change_keeps_token request (u : User) (token : Token) w :
  token ∈ tokens w →
  user_id token = pk u →
  one_token_per_user (tokens w) →
  (∀ serializer, request_user request = Some u →
     ∃ w', SetPasswordView_action request serializer w
           = (Ok (mkResponse NoData 200), w')
           ∧ tokens w' = tokens w
           ∧ ∀ login : Serializer LoginAttrs,
               pk (object (attrs login)) = pk u →
               LoginView_action login w'
               = (Ok (mkResponse (Fields (TokenSerializer token)) 200), w'))
  ∧ (∀ serializer, reset_user (attrs serializer) = u →
       ∃ w', PasswordResetConfirmView_action serializer w
             = (Ok (mkResponse NoData 200), w')
             ∧ tokens w' = tokens w
             ∧ ∀ login : Serializer LoginAttrs,
                 pk (object (attrs login)) = pk u →
                 LoginView_action login w'
                 = (Ok (mkResponse (Fields (TokenSerializer token)) 200), w')).
Proof.
  intros Hin Hid Hone.
  assert (Hlogin : ∀ w', tokens w' = tokens w →
            ∀ login : Serializer LoginAttrs,
              pk (object (attrs login)) = pk u →
              LoginView_action login w'
              = (Ok (mkResponse (Fields (TokenSerializer token)) 200), w')).
  { intros w' Hsame login Hpk. unfold LoginView_action.
    rewrite (bind_ok _ _ w' w' (token, false)); [done|].
    apply get_or_create_existing. rewrite Hsame.
    apply tokens_of_existing; [done..|congruence]. }
  split.
  - intros serializer Huser. eexists. split.
    { unfold SetPasswordView_action, authenticated_user. rewrite Huser.
      rewrite (bind_ok _ _ w w u) by done.
      erewrite bind_ok by reflexivity.
      erewrite bind_ok
        by (apply save_same_username;
            by apply (get_username_set_password u _ w _ _ eq_refl)).
      reflexivity. }
    split; [done|]. by apply Hlogin.
  - intros serializer <-. eexists. split.
    { unfold PasswordResetConfirmView_action.
      erewrite bind_ok by reflexivity.
      erewrite bind_ok
        by (apply save_same_username;
            by apply (get_username_set_password _ _ w _ _ eq_refl)).
      reflexivity. }
    split; [done|]. by apply Hlogin.
Qed.

End Composition.

(** ** The further properties at work on the concrete framework *)

Lemma demo_world_own_key (u : User) :
  u ∈ users demo_world →
  ∀ r, r ∈ users demo_world → pk r = pk u → r = u.
Proof.
  cbn [users demo_world]. intros Hu r Hr Hpk.
  repeat (apply elem_of_cons in Hu as [->|Hu]);
    try (by apply elem_of_nil in Hu);
    repeat (apply elem_of_cons in Hr as [->|Hr]);
    try (by apply elem_of_nil in Hr); done.
Defined.

Lemma password_reset_no_candidate_witness :
  is_valid (@get_serializer demo _ PasswordResetSerializer
              (demo_request "nobody@example.com") demo_world) = true
  ∧ @PasswordResetView_post demo demo_settings
      (demo_request "nobody@example.com") demo_world
    = (Ok (mkResponse NoData 200), demo_world).
Proof.
  split; [reflexivity|].
  apply (@password_reset_no_candidate demo demo_settings
           (demo_request "nobody@example.com") demo_world eq_refl).
  cbn [users demo_world]. intros u Hu.
  repeat (apply elem_of_cons in Hu as [->|Hu]); try reflexivity.
  by apply elem_of_nil in Hu.
Defined.


Lemma get_users_ignores_case_witness :
  iexact (lit "ALICE@example.com") (lit "alice@EXAMPLE.com") = true
  ∧ @PasswordResetView_get_users demo (lit "ALICE@example.com") demo_world
    = @PasswordResetView_get_users demo (lit "alice@EXAMPLE.com") demo_world.
Proof.
  split; [reflexivity|].
  apply (@get_users_ignores_case demo (lit "ALICE@example.com")
           (lit "alice@EXAMPLE.com") demo_world eq_refl).
Defined.

Lemma email_context_shape_witness :
  well_configured demo_settings = true
  ∧ ∃ ctx : Context,
      @get_email_context demo demo_settings RegistrationView
        (demo_request "x") bob demo_world = (Ok ctx, demo_world)
      ∧ dom ctx = list_to_set context_keys
      ∧ ctx !! lit "protocol" = Some (VStr (lit "https")).
Proof.
  split; [reflexivity|].
  destruct (@email_context_shape demo demo_settings RegistrationView
              (demo_request "x") bob demo_world (or_introl eq_refl) eq_refl)
    as (ctx & Hctx & Hdom & _ & _ & _ & Hprotocol).
  exists ctx. split; [exact Hctx|]. split; [exact Hdom|exact Hprotocol].
Defined.


Lemma clean_subject_unchanged_witness :
  Forall (λ c, is_linebreak c = false)
         (@render_to_string demo_plain (lit "subject.txt") ∅)
  ∧ ∃ m, @send_email demo_plain demo_settings (lit "a@example.com") None ∅
           (lit "subject.txt") (lit "body.txt") None demo_world
         = (Ok tt, mkWorld (users demo_world) (tokens demo_world)
                           (outbox demo_world ++ [m]) (today demo_world)
                           (entropy demo_world))
         ∧ m_subject m = lit "subject.txt"
         ∧ m_from m = Some (lit "noreply@example.com").
Proof.
  assert (Hclean : Forall (λ c, is_linebreak c = false)
                          (@render_to_string demo_plain (lit "subject.txt") ∅)).
  { cbn [render_to_string demo_plain]. vm_compute.
    repeat (constructor; [reflexivity|]). constructor. }
  split; [exact Hclean|].
  destruct (@clean_subject_unchanged demo_plain demo_settings
              (lit "a@example.com") None ∅
              (lit "subject.txt") (lit "body.txt") None demo_world Hclean)
    as (m & Hsend & Hsubject & _ & _ & Hfrom).
  exists m. split; [exact Hsend|]. split; [exact Hsubject|exact Hfrom].
Defined.

Lemma post_save_effects_witness :
  one_token_per_user (tokens demo_world)
  ∧ well_configured demo_settings = true
  ∧ ∃ w' : World,
      @RegistrationView_post_save demo demo_settings (demo_request "x") carol
        demo_world = (Ok tt, w')
      ∧ users w' = users demo_world.
Proof.
  split; [exact demo_world_one_to_one|]. split; [reflexivity|].
  destruct (@post_save_effects demo demo_settings (demo_request "x") carol
              demo_world demo_world_one_to_one eq_refl)
    as (w' & Hsave & Husers & _).
  exists w'. split; [exact Hsave|exact Husers].
Defined.

Lemma login_issues_new_token_witness :
  tokens_of alice (tokens demo_world) = []
  ∧ ∃ (token : Token) (w' : World),
      @LoginView_action demo
        (@get_serializer demo _ UserLoginSerializer (demo_request "x")
           demo_world) demo_world
      = (Ok (mkResponse (Fields (@TokenSerializer demo token)) 200), w')
      ∧ tokens w' = tokens demo_world ++ [token].
Proof.
  split; [reflexivity|].
  destruct (@login_issues_new_token demo
              (@get_serializer demo _ UserLoginSerializer (demo_request "x")
                 demo_world) demo_world eq_refl)
    as (token & w' & Hact & _ & Htokens & _).
  exists token, w'. split; [exact Hact|exact Htokens].
Defined.

Lemma activation_sets_only_the_flag_witness :
  bob ∈ users demo_world
  ∧ one_token_per_user (tokens demo_world)
  ∧ ∃ resp w',
      @ActivationView_action demo demo_settings bob_activation demo_world
      = (Ok resp, w')
      ∧ users w' = [alice; activated bob; carol].
Proof.
  assert (Hbob : bob ∈ users demo_world)
    by apply list_elem_of_further, list_elem_of_here.
  split; [exact Hbob|]. split; [exact demo_world_one_to_one|].
  destruct (@activation_sets_only_the_flag demo demo_settings bob_activation
              demo_world Hbob (demo_world_own_key bob Hbob)
              demo_world_one_to_one)
    as (resp & w' & Hact & _ & Husers & _).
  exists resp, w'. split; [exact Hact|]. rewrite Husers. reflexivity.
Defined.

Lemma activation_idempotent_witness :
  one_token_per_user (tokens demo_world)
  ∧ ∃ resp w',
      @ActivationView_action demo demo_settings bob_activation demo_world
      = (Ok resp, w')
      ∧ @ActivationView_action demo demo_settings bob_activation w'
        = (Ok resp, w').
Proof.
  split; [exact demo_world_one_to_one|].
  apply (@activation_idempotent demo demo_settings bob_activation demo_world
           demo_world_one_to_one).
Defined.

Lemma activation_enables_password_reset_witness :
  is_active bob = false
  ∧ @has_usable_password demo bob = true
  ∧ ∃ found resp w' found',
      @PasswordResetView_get_users demo (email bob) demo_world
      = (Ok found, demo_world)
      ∧ (bob ∉ found)
      ∧ @ActivationView_action demo demo_settings bob_activation demo_world
        = (Ok resp, w')
      ∧ @PasswordResetView_get_users demo (email bob) w' = (Ok found', w')
      ∧ activated bob ∈ found'.
Proof.
  assert (Hbob : bob ∈ users demo_world)
    by apply list_elem_of_further, list_elem_of_here.
  split; [reflexivity|]. split; [reflexivity|].
  apply (@activation_enables_password_reset demo demo_settings bob_activation
           demo_world Hbob (demo_world_own_key bob Hbob)
           demo_world_one_to_one eq_refl eq_refl).
Defined.

Lemma password_change_keeps_token_witness :
  mkToken (lit "k1") 2 ∈ tokens demo_world
  ∧ one_token_per_user (tokens demo_world)
  ∧ ∃ w', @SetPasswordView_action demo bob_request
            (@get_serializer demo _ SetPasswordSerializer bob_request
               demo_world) demo_world
          = (Ok (mkResponse NoData 200), w')
          ∧ tokens w' = tokens demo_world.
Proof.
  split; [apply list_elem_of_here|]. split; [exact demo_world_one_to_one|].
  destruct (@password_change_keeps_token demo bob_request bob
              (mkToken (lit "k1") 2) demo_world (list_elem_of_here _ _)
              eq_refl demo_world_one_to_one) as [Hset _].
  destruct (Hset (@get_serializer demo _ SetPasswordSerializer bob_request
                    demo_world) eq_refl) as (w' & Hact & Htokens & _).
  exists w'. split; [exact Hact|exact Htokens].
Defined.

Lemma sending_views_send_plain_text_witness :
  well_configured demo_settings = true
  ∧ ∃ kwargs m,
      @get_send_email_kwargs demo demo_settings PasswordResetView
        (demo_request "x") alice demo_world = (Ok kwargs, demo_world)
      ∧ html_body_template_name kwargs = None
      ∧ @send_email_with demo demo_settings kwargs demo_world
        = (Ok tt, mkWorld (users demo_world) (tokens demo_world)
                          (outbox demo_world ++ [m]) (today demo_world)
                          (entropy demo_world))
      ∧ m_alternatives m = [].
Proof.
  split; [reflexivity|].
  destruct (@sending_views_send_plain_text demo demo_settings
              PasswordResetView (demo_request "x") alice demo_world
              (or_intror eq_refl) eq_refl)
    as (kwargs & m & Hkw & _ & _ & _ & Hhtml & Hsend & _ & _ & Halt).
  exists kwargs, m. split; [exact Hkw|]. split; [exact Hhtml|].
  split; [exact Hsend|exact Halt].
Defined.
